(** * The Socket class of ext/socket/socket.c

    A shallow embedding of the operations of [socket.c] and the
    properties of its address codec, its name-resolution bridge and its
    socket life cycle.

    Ruby strings and C character arrays are lists of bytes; C integers
    are [Z] with the conversions written out; the operating system, the
    resolver and the helpers of the extension that live in other files
    are an environment the operations are run against; every call made to
    it is recorded in a trace. The taint of strings ([OBJ_INFECT]) is left
    out, and an argument the interpreter has already converted (the
    sockaddr of the codec, the socket of a method) is taken as what it was
    converted to. *)

From Stdlib Require Import Strings.String Strings.Byte DecimalString.
From Stdlib Require Import ZArith List Bool Lia.
Import ListNotations.
Open Scope Z_scope.

Set Implicit Arguments.
Set Warnings "-register-all".

(* ------------------------------------------------------------------ *)
(** ** Bytes, C strings and integers in memory *)

Module Mem.

Definition bytes := list byte.

Definition byte_to_Z (b : byte) : Z := Z.of_N (Byte.to_N b).

Definition Z_to_byte (z : Z) : byte :=
  match Byte.of_N (Z.to_N (z mod 256)) with
  | Some b => b
  | None => x00
  end.

Definition is_nul (b : byte) : bool := Byte.eqb b x00.

(** The text of a string literal of the source. *)
Definition lit (s : string) : bytes := list_byte_of_string s.

(** The bytes before the first NUL: what a [char *] denotes when it points
    at the head of [m] and [m] is followed by a terminator. *)
Fixpoint until_nul (m : bytes) : bytes :=
  match m with
  | [] => []
  | b :: r => if is_nul b then [] else b :: until_nul r
  end.

Definition has_nul (m : bytes) : bool := existsb is_nul m.

(** [strcmp(a, b) == 0] for two C strings. *)
Fixpoint bytes_eqb (a b : bytes) : bool :=
  match a, b with
  | [], [] => true
  | x :: a', y :: b' => Byte.eqb x y && bytes_eqb a' b'
  | _, _ => false
  end.

(** [strlen] on a buffer that a terminator follows. *)
Definition strlen (m : bytes) : nat := length (until_nul m).

(** [strncpy(dst, src, n)] writes exactly [n] bytes: the string, then NULs. *)
Definition strncpy (n : nat) (src : bytes) : bytes :=
  firstn n (until_nul src ++ repeat x00 n).

(** A store of [bs] at offset [off] of the object [buf]. *)
Definition store (off : nat) (bs : bytes) (buf : bytes) : bytes :=
  firstn off buf ++ bs ++ skipn (off + length bs) buf.

Definition load (off n : nat) (buf : bytes) : bytes :=
  firstn n (skipn off buf).

Inductive endianness := LittleEndian | BigEndian.

Fixpoint le_bytes (n : nat) (z : Z) : bytes :=
  match n with
  | O => []
  | S k => Z_to_byte z :: le_bytes k (z / 256)
  end.

Fixpoint le_value (bs : bytes) : Z :=
  match bs with
  | [] => 0
  | b :: r => byte_to_Z b + 256 * le_value r
  end.

(** An unsigned integer of [n] bytes as it lies in memory. *)
Definition int_bytes (e : endianness) (n : nat) (z : Z) : bytes :=
  match e with
  | LittleEndian => le_bytes n z
  | BigEndian => rev (le_bytes n z)
  end.

Definition int_value (e : endianness) (bs : bytes) : Z :=
  match e with
  | LittleEndian => le_value bs
  | BigEndian => le_value (rev bs)
  end.

(** A [char *]: into the Ruby string at hand, or at a string elsewhere
    (a literal, say), given by its bytes. *)
Inductive cptr :=
| AddrPtr (off : nat)
| ConstPtr (s : bytes).

Definition cptr_eqb (p q : cptr) : bool :=
  match p, q with
  | AddrPtr a, AddrPtr b => Nat.eqb a b
  | _, _ => false
  end.

(** The C string at [p]; the Ruby string [buf] carries a terminator right
    after its last byte, and nothing can be read behind that. *)
Definition c_str_at (buf : bytes) (p : cptr) : option bytes :=
  match p with
  | AddrPtr off =>
      if (off <=? length buf)%nat then Some (until_nul (skipn off buf)) else None
  | ConstPtr s => Some (until_nul s)
  end.

(** [p + strlen(p) == RSTRING_PTR(buf) + RSTRING_LEN(buf)]. *)
Definition ends_at_end (buf : bytes) (p : cptr) : option bool :=
  match p with
  | AddrPtr off =>
      if (off <=? length buf)%nat
      then Some (Nat.eqb (off + strlen (skipn off buf)) (length buf))
      else None
  | ConstPtr _ => Some false
  end.

End Mem.
Import Mem.

(* ------------------------------------------------------------------ *)
(** ** The platform: what the C headers and [configure] fix *)

Record platform := {
  byte_order : endianness;
  long_bits : Z;                 (* width of [long] *)
  HAVE_SOCKETPAIR : bool;
  HAVE_HSTRERROR : bool;
  h_addr_defined : bool;         (* netdb.h: struct hostent has h_addr_list *)
  INET6 : bool;
  AF_INET : Z;
  AF_INET6 : Z;
  AF_UNIX : Z;
  EMFILE : Z;
  ENFILE : Z;
  EINPROGRESS : Z;
  sa_family_offset : nat;        (* offsetof(struct sockaddr, sa_family) *)
  sa_family_size : nat;          (* sizeof(sa_family) *)
  sin_port_offset : nat;         (* offsetof(struct sockaddr_in, sin_port) *)
  sin_addr_offset : nat;         (* offsetof(struct sockaddr_in, sin_addr) *)
  sin6_addr_offset : nat;        (* offsetof(struct sockaddr_in6, sin6_addr) *)
  sun_path_offset : nat;         (* offsetof(struct sockaddr_un, sun_path) *)
  sun_path_size : nat;           (* sizeof(sockaddr.sun_path) *)
  sizeof_sockaddr_un : nat;      (* sizeof(struct sockaddr_un) *)
  sizeof_sockaddr_storage : nat;
  SA_LEN : bytes -> nat;         (* the macro SA_LEN of rubysocket.h *)
  SA_LEN_reads : nat;
    (* the leading bytes of the sockaddr the macro looks at: up to the end
       of sa_len where the structure has one, of sa_family where the
       macro tests the family *)
  SOCK_STREAM : Z;
  SOCK_DGRAM : Z;
  PF_UNSPEC : Z;
  NI_DGRAM : Z;
  AI_NUMERICHOST : option Z      (* AIX 4.3.3 has none *)
}.

(** The layout of [struct sockaddr_un] is a layout: the family tag lies
    before the path, the path inside the structure, and the family
    constant fits its field; a [long] has its 32 bits at least. *)
Record platform_wf (P : platform) : Prop := {
  wf_family_before_path :
    (sa_family_offset P + sa_family_size P <= sun_path_offset P)%nat;
  wf_path_inside :
    (sun_path_offset P + sun_path_size P <= sizeof_sockaddr_un P)%nat;
  wf_af_unix : 0 <= AF_UNIX P < 256 ^ Z.of_nat (sa_family_size P);
  wf_long : 32 <= long_bits P
}.

(** Linux on x86-64. *)
Definition linux : platform := {|
  byte_order := LittleEndian;
  long_bits := 64;
  HAVE_SOCKETPAIR := true;
  HAVE_HSTRERROR := true;
  h_addr_defined := true;
  INET6 := true;
  AF_INET := 2;
  AF_INET6 := 10;
  AF_UNIX := 1;
  EMFILE := 24;
  ENFILE := 23;
  EINPROGRESS := 115;
  sa_family_offset := 0;
  sa_family_size := 2;
  sin_port_offset := 2;
  sin_addr_offset := 4;
  sin6_addr_offset := 8;
  sun_path_offset := 2;
  sun_path_size := 108;
  sizeof_sockaddr_un := 110;
  sizeof_sockaddr_storage := 128;
  SA_LEN := fun sa =>
    if int_value LittleEndian (load 0 2 sa) =? 10 then 28%nat else 16%nat;
  SA_LEN_reads := 2;
  SOCK_STREAM := 1;
  SOCK_DGRAM := 2;
  PF_UNSPEC := 0;
  NI_DGRAM := 16;
  AI_NUMERICHOST := Some 4
|}.

(** Mac OS X: [struct sockaddr] opens with [sa_len], and the family tag is
    the one byte after it. *)
Definition darwin : platform := {|
  byte_order := LittleEndian;
  long_bits := 64;
  HAVE_SOCKETPAIR := true;
  HAVE_HSTRERROR := true;
  h_addr_defined := true;
  INET6 := true;
  AF_INET := 2;
  AF_INET6 := 30;
  AF_UNIX := 1;
  EMFILE := 24;
  ENFILE := 23;
  EINPROGRESS := 36;
  sa_family_offset := 1;
  sa_family_size := 1;
  sin_port_offset := 2;
  sin_addr_offset := 4;
  sin6_addr_offset := 8;
  sun_path_offset := 2;
  sun_path_size := 104;
  sizeof_sockaddr_un := 106;
  sizeof_sockaddr_storage := 128;
  SA_LEN := fun sa => Z.to_nat (int_value LittleEndian (load 0 1 sa));
  SA_LEN_reads := 1;
  SOCK_STREAM := 1;
  SOCK_DGRAM := 2;
  PF_UNSPEC := 0;
  NI_DGRAM := 16;
  AI_NUMERICHOST := Some 4
|}.

(* ------------------------------------------------------------------ *)
(** ** Ruby values, exceptions and results *)

Inductive rvalue :=
| Qnil
| RInteger (n : Z)
| RString (s : bytes)
| RSymbol (s : bytes)
| RArray (l : list rvalue)
| RSocket (fd : Z)
| RAddrinfo (sock : rvalue) (sa : bytes).

Inductive rb_class :=
| rb_eArgError | rb_eTypeError | rb_eRangeError | rb_eSocket
| rb_eIOError | rb_eNotImpError | rb_eSecurityError.

Inductive fmt_arg := FInt (z : Z) | FStr (s : bytes).

Inductive exn :=
| Exc (cls : rb_class) (fmt : string) (args : list fmt_arg)
    (* rb_raise(cls, fmt, args...) *)
| SysFail (mesg : string) (errno : Z)
    (* rb_sys_fail(mesg): the SystemCallError of errno *)
| ResolvFail (func : string) (code : Z)
    (* raise_socket_error(func, code) *)
| Thrown (e : rvalue).
    (* an exception object raised by a block or by a helper *)

(** What a C function of the extension does: return, raise (a longjmp to
    the interpreter), or leave defined behaviour. *)
Inductive result (A : Type) :=
| Ok (a : A)
| Raise (e : exn)
| Undefined.
Arguments Raise {A} e.
Arguments Undefined {A}.

Definition rbind {A B} (r : result A) (k : A -> result B) : result B :=
  match r with
  | Ok a => k a
  | Raise e => Raise e
  | Undefined => Undefined
  end.

Definition raised {A} (r : result A) : bool :=
  match r with Raise _ => true | _ => false end.

Definition rb_raise {A} (cls : rb_class) (fmt : string) (args : list fmt_arg)
  : result A := Raise (Exc cls fmt args).

Definition rb_assoc_new (a b : rvalue) : rvalue := RArray [a; b].

(** [StringValueCStr] on a String: a C string cannot hold a NUL. *)
Definition StringValueCStr (s : bytes) : result bytes :=
  if has_nul s then rb_raise rb_eArgError "string contains null byte" []
  else Ok s.

(** [NUM2LONG] and [NUM2INT] on an Integer, of any size. Of the values
    above, those that are no Integer have no [to_int], and the interpreter
    raises TypeError for them, with a message naming the class that is
    left out here. What [NUM2LONG] converts besides an Integer, a Float or
    an object with [to_int], is no value of [rvalue]: where a fact below
    says what these macros give, it says so of an Integer. *)
Definition fits_signed (bits n : Z) : bool :=
  (- 2 ^ (bits - 1) <=? n) && (n <? 2 ^ (bits - 1)).

Definition num2long (P : platform) (v : rvalue) : result Z :=
  match v with
  | RInteger n =>
      if fits_signed (long_bits P) n then Ok n
      else rb_raise rb_eRangeError "bignum too big to convert into `long'" []
  | _ => rb_raise rb_eTypeError "can't convert into Integer" []
  end.

Definition num2int (P : platform) (v : rvalue) : result Z :=
  rbind (num2long P v) (fun n =>
    if fits_signed 32 n then Ok n
    else rb_raise rb_eRangeError
           (if 0 <? n then "integer %ld too big to convert to `int'"
            else "integer %ld too small to convert to `int'") [FInt n]).

(** The functions of the extension that [rubysocket.h] declares and other
    files define; the codec uses these. *)
Record helpers := {
  family_arg : rvalue -> result Z;
  socktype_arg : rvalue -> result Z;
  unixpath : bytes -> cptr;
    (* unixpath(sockaddr, len), for the string the sockaddr lies in *)
  make_ipaddr : bytes -> result rvalue
}.

(* ------------------------------------------------------------------ *)
(** ** The address codec *)

Module Codec.
Section WithPlatform.

Variable P : platform.
Variable H : helpers.

Definition family_tag_end : nat := (sa_family_offset P + sa_family_size P)%nat.

(** [((struct sockaddr * )sockaddr)->sa_family] *)
Definition sa_family (addr : bytes) : Z :=
  int_value (byte_order P) (load (sa_family_offset P) (sa_family_size P) addr).

Definition ntohs (x : Z) : Z := int_value BigEndian (int_bytes (byte_order P) 2 x).
Definition htons (x : Z) : Z := int_value (byte_order P) (int_bytes BigEndian 2 x).

Definition is_inet_family (f : Z) : bool :=
  (f =? AF_INET P) || (INET6 P && (f =? AF_INET6 P)).

Definition sock_s_unpack_sockaddr_in (addr : bytes) : result rvalue :=
  if (length addr <? family_tag_end)%nat then
    rb_raise rb_eArgError "too short sockaddr" []
  else if negb (sa_family addr =? AF_INET P)
          && (if INET6 P then negb (sa_family addr =? AF_INET6 P) else true) then
    (if INET6 P
     then rb_raise rb_eArgError "not an AF_INET/AF_INET6 sockaddr" []
     else rb_raise rb_eArgError "not an AF_INET sockaddr" [])
  else
    rbind (make_ipaddr H addr) (fun host =>
    if (length addr <? sin_port_offset P + 2)%nat then Undefined
    else
      let sin_port := int_value (byte_order P) (load (sin_port_offset P) 2 addr) in
      Ok (rb_assoc_new (RInteger (ntohs sin_port)) host)).

Definition sock_sockaddr (addr : bytes) : result rvalue :=
  let f := sa_family addr in
  if f =? AF_INET P then
    if (length addr <? sin_addr_offset P + 4)%nat then Undefined
    else Ok (RString (load (sin_addr_offset P) 4 addr))
  else if INET6 P && (f =? AF_INET6 P) then
    if (length addr <? sin6_addr_offset P + 16)%nat then Undefined
    else Ok (RString (load (sin6_addr_offset P) 16 addr))
  else rb_raise rb_eSocket "unknown socket family:%d" [FInt f].

Definition too_long_path : exn :=
  Exc rb_eArgError "too long unix socket path (max: %dbytes)"
      [FInt (Z.of_nat (sun_path_size P) - 1)].

Definition sock_s_pack_sockaddr_un (path : bytes) : result bytes :=
  let sockaddr := repeat x00 (sizeof_sockaddr_un P) in
  let sockaddr :=
    store (sa_family_offset P)
          (int_bytes (byte_order P) (sa_family_size P) (AF_UNIX P)) sockaddr in
  rbind (StringValueCStr path) (fun sun_path =>
  if (sun_path_size P <=? strlen sun_path)%nat then Raise too_long_path
  else
    let sockaddr :=
      store (sun_path_offset P) (strncpy (sun_path_size P - 1) sun_path) sockaddr in
    Ok sockaddr).

Definition not_nul_terminated : exn :=
  Exc rb_eArgError "sockaddr_un.sun_path not NUL terminated" [].

Definition sock_s_unpack_sockaddr_un (addr : bytes) : result bytes :=
  if (length addr <? family_tag_end)%nat then
    rb_raise rb_eArgError "too short sockaddr" []
  else if negb (sa_family addr =? AF_UNIX P) then
    rb_raise rb_eArgError "not an AF_UNIX sockaddr" []
  else if (sizeof_sockaddr_un P <? length addr)%nat then
    rb_raise rb_eTypeError "too long sockaddr_un - %ld longer than %d"
             [FInt (Z.of_nat (length addr)); FInt (Z.of_nat (sizeof_sockaddr_un P))]
  else
    let sun_path := unixpath H addr in
    let rb_str_new2 :=
      match c_str_at addr sun_path with
      | Some path => Ok path
      | None => Undefined
      end in
    if Nat.eqb (sizeof_sockaddr_un P) (length addr)
       && cptr_eqb sun_path (AddrPtr (sun_path_offset P)) then
      match ends_at_end addr sun_path with
      | Some true => Raise not_nul_terminated
      | Some false => rb_str_new2
      | None => Undefined
      end
    else rb_str_new2.

End WithPlatform.
End Codec.

(** [unixpath] as [unixsocket.c] has it: the path field when the string
    reaches it, the empty string when not. *)
Definition unixpath_field (P : platform) (addr : bytes) : cptr :=
  if (sun_path_offset P <? length addr)%nat then AddrPtr (sun_path_offset P)
  else ConstPtr [].

Definition helpers0 (P : platform) : helpers := {|
  family_arg := fun v =>
    match v with
    | RInteger n => Ok n
    | _ => rb_raise rb_eSocket "unknown socket domain" []
    end;
  socktype_arg := fun v =>
    match v with
    | RInteger n => Ok n
    | _ => rb_raise rb_eSocket "unknown socket type" []
    end;
  unixpath := unixpath_field P;
  make_ipaddr := fun addr => Ok (RString (load (sin_addr_offset P) 4 addr))
|}.


(* ------------------------------------------------------------------ *)
(** ** The environment: system calls, resolver, helpers with effects *)

Record addrinfo := {
  ai_family : Z;
  ai_socktype : Z;
  ai_protocol : Z;
  ai_canonname : option bytes;
  ai_addr : bytes
}.

Record addrinfo_hints := {
  hint_flags : Z;
  hint_family : Z;
  hint_socktype : Z
}.

Record servent := {
  s_name : bytes;
  s_port : Z                     (* the port, in network byte order *)
}.

Record hostent := {
  h_name : bytes;
  h_aliases : option (list bytes);
  h_addrtype : Z;
  h_addr_list : list bytes       (* each of h_length bytes *)
}.

(** A call that leaves the extension. *)
Inductive event :=
| ev_ruby_socket (d t p : Z)
| ev_socketpair (d t p : Z)
| ev_rb_gc
| ev_rb_yield (v : rvalue)
| ev_close (io : rvalue)
| ev_rb_io_set_nonblock (fd : Z)
| ev_connect (fd : Z) (addr : bytes)
| ev_ruby_connect (fd : Z) (addr : bytes)
| ev_bind (fd : Z) (addr : bytes)
| ev_listen (fd : Z) (backlog : Z)
| ev_s_accept (klass : bool) (fd : Z)
| ev_s_accept_nonblock (fd : Z)
| ev_s_recvfrom (fd : Z) (argv : list rvalue)
| ev_s_recvfrom_nonblock (fd : Z) (argv : list rvalue)
| ev_gethostbyaddr (addr : bytes) (len : nat) (t : Z)
| ev_getservbyname (name proto : bytes)
| ev_getservbyport (port : Z) (proto : bytes)
| ev_rb_getaddrinfo (host port : option bytes) (hints : addrinfo_hints)
| ev_rb_getnameinfo (sa : bytes) (salen : nat) (flags : Z).

(** What a call returns may depend on everything that happened before it:
    every entry takes the trace up to the call. A system call returns its
    [int] and the [errno] it leaves when that is negative. *)
Record host := {
  os_socketpair : list event -> Z -> Z -> Z -> Z * Z * (Z * Z);
  os_connect : list event -> Z -> bytes -> Z * Z;
  os_bind : list event -> Z -> bytes -> Z * Z;
  os_listen : list event -> Z -> Z -> Z * Z;
  os_gethostbyaddr : list event -> bytes -> nat -> Z -> hostent + bytes;
    (* the entry, or NULL and the text of hstrerror(h_errno) *)
  os_getservbyname : list event -> bytes -> bytes -> option servent;
  os_getservbyport : list event -> Z -> bytes -> option servent;
  os_rb_getaddrinfo :
    list event -> option bytes -> option bytes -> addrinfo_hints ->
    Z * list addrinfo;
  os_rb_getnameinfo : list event -> bytes -> nat -> Z -> Z * (bytes * bytes);
  (* helpers of init.c and basicsocket.c *)
  hp_ruby_socket : list event -> Z -> Z -> Z -> Z * Z;
  hp_ruby_connect : list event -> Z -> bytes -> Z * Z;
  hp_rb_io_set_nonblock : list event -> Z -> option exn;
  hp_s_accept : list event -> bool -> Z -> result (rvalue * bytes);
  hp_s_accept_nonblock : list event -> Z -> result (rvalue * bytes);
  hp_s_recvfrom : list event -> Z -> list rvalue -> result rvalue;
  hp_s_recvfrom_nonblock : list event -> Z -> list rvalue -> result rvalue
}.

Record world := {
  trace : list event;
  errno : Z;
  safe_level : Z                 (* $SAFE *)
}.

(** The extension's code: a result and the world it leaves; a raise keeps
    what was done before it. *)
Definition M (A : Type) := world -> result A * world.

Definition ret {A} (a : A) : M A := fun w => (Ok a, w).

Definition bind {A B} (m : M A) (k : A -> M B) : M B :=
  fun w =>
    match m w with
    | (Ok a, w') => k a w'
    | (Raise e, w') => (Raise e, w')
    | (Undefined, w') => (Undefined, w')
    end.

Declare Scope sock_scope.
Delimit Scope sock_scope with sock.
Notation "x <- m ;; k" := (bind m (fun x => k))
  (at level 61, m at next level, right associativity) : sock_scope.
Notation "' pat <- m ;; k" := (bind m (fun x => match x with pat => k end))
  (at level 61, pat pattern, m at next level, right associativity) : sock_scope.
Notation "m ;; k" := (bind m (fun _ => k))
  (at level 61, right associativity) : sock_scope.
Open Scope sock_scope.

Definition lift {A} (r : result A) : M A := fun w => (r, w).

Definition emit (e : event) (w : world) : world :=
  {| trace := trace w ++ [e]; errno := errno w; safe_level := safe_level w |}.

(** A system call: traced, and [errno] is written when it fails. *)
Definition syscall (e : event) (r : list event -> Z * Z) : M Z :=
  fun w =>
    let '(n, en) := r (trace w) in
    (Ok n, {| trace := trace w ++ [e];
              errno := if n <? 0 then en else errno w;
              safe_level := safe_level w |}).

(** A helper that returns or raises. *)
Definition call {A} (e : event) (r : list event -> result A) : M A :=
  fun w => (r (trace w), emit e w).

(** A library call that only returns. *)
Definition query {A} (e : event) (r : list event -> A) : M A :=
  fun w => (Ok (r (trace w)), emit e w).

Definition rb_sys_fail {A} (mesg : string) : M A :=
  fun w => (Raise (SysFail mesg (errno w)), w).

Definition raise_socket_error {A} (func : string) (code : Z) : M A :=
  lift (Raise (ResolvFail func code)).

Definition get_errno : M Z := fun w => (Ok (errno w), w).

(** [rb_ensure(body, ..., ensure, ...)]: [ensure] runs however [body] ends,
    and [body]'s end is the end. *)
Definition rb_ensure {A B} (body : M A) (ensure : M B) : M A :=
  fun w =>
    let '(r, w1) := body w in
    match r with
    | Undefined => (Undefined, w1)
    | _ => match ensure w1 with
           | (Undefined, w2) => (Undefined, w2)
           | (_, w2) => (r, w2)
           end
    end.

Definition NIL_P (v : rvalue) : bool :=
  match v with Qnil => true | _ => false end.

Definition StringValue (v : rvalue) : result bytes :=
  match v with
  | RString s => Ok s
  | _ => rb_raise rb_eTypeError "can't convert into String" []
  end.

Definition wrap_signed (bits z : Z) : Z :=
  (z + 2 ^ (bits - 1)) mod 2 ^ bits - 2 ^ (bits - 1).

(** [INT2FIX]: a Fixnum has one bit less than a [long]. *)
Definition INT2FIX (P : platform) (i : Z) : rvalue :=
  RInteger (wrap_signed (long_bits P - 1) i).

Definition FIXNUM_P (P : platform) (v : rvalue) : bool :=
  match v with
  | RInteger n => fits_signed (long_bits P - 1) n
  | _ => false
  end.

Definition rb_secure (level : Z) : M unit :=
  fun w =>
    if level <=? safe_level w
    then (rb_raise rb_eSecurityError "Insecure operation at level %d"
                   [FInt (safe_level w)], w)
    else (Ok tt, w).

(** [GetOpenFile]: the descriptor of the socket, negative once closed. *)
Definition GetOpenFile (sock : Z) : result Z :=
  if sock <? 0 then rb_raise rb_eIOError "closed stream" [] else Ok sock.

(** The calls an operation makes from the world [w] on. *)
Definition issued {A} (m : M A) (w : world) : list event :=
  skipn (length (trace w)) (trace (snd (m w))).

(** [evs] is a run through [calls] in their order, each call made once,
    that a raise may have cut short. *)
Definition straight_line (calls evs : list event) : Prop :=
  exists k, evs = firstn k calls.

(** The world after the calls [evs], with [e] in [errno]. *)
Definition after_calls (w : world) (evs : list event) (e : Z) : world :=
  {| trace := trace w ++ evs; errno := e; safe_level := safe_level w |}.

(* ------------------------------------------------------------------ *)
(** ** The socket life cycle *)

Module Lifecycle.
Section WithHost.

Variable P : platform.
Variable H : helpers.
Variable O : host.

Definition setup_domain_and_type (domain type : rvalue) : M (Z * Z) :=
  dv <- lift (family_arg H domain) ;;
  tv <- lift (socktype_arg H type) ;;
  ret (dv, tv).

Definition init_sock (fd : Z) : rvalue := RSocket fd.

Definition sock_initialize (domain type protocol : rvalue) : M rvalue :=
  rb_secure 3 ;;
  ' (d, t) <- setup_domain_and_type domain type ;;
  p <- lift (num2int P protocol) ;;
  fd <- syscall (ev_ruby_socket d t p) (fun tr => hp_ruby_socket O tr d t p) ;;
  if fd <? 0 then rb_sys_fail "socket(2)" else ret (init_sock fd).

(** [socketpair(d, t, p, sp)]; [sp] is written on success. *)
Definition socketpair (d t p : Z) (sp : Z * Z) : M (Z * (Z * Z)) :=
  fun w =>
    let '(n, en, sp') := os_socketpair O (trace w) d t p in
    (Ok (n, if n <? 0 then sp else sp'),
     {| trace := trace w ++ [ev_socketpair d t p];
        errno := if n <? 0 then en else errno w;
        safe_level := safe_level w |}).

Definition rb_gc : M unit := query ev_rb_gc (fun _ => tt).

(** [io_close]: [close] is called and what it raises is rescued. *)
Definition io_close (io : rvalue) : M rvalue :=
  query (ev_close io) (fun _ => Qnil).

Definition rb_yield (blk : rvalue -> M rvalue) (v : rvalue) : M rvalue :=
  fun w => blk v (emit (ev_rb_yield v) w).

Definition rb_ary_entry (a : rvalue) (i : nat) : rvalue :=
  match a with
  | RArray l => nth i l Qnil
  | _ => Qnil
  end.

Definition pair_yield (blk : rvalue -> M rvalue) (pair : rvalue) : M rvalue :=
  rb_ensure (rb_yield blk pair) (io_close (rb_ary_entry pair 1)).

Definition rb_notimplement {A} : M A :=
  lift (rb_raise rb_eNotImpError "function is unimplemented on this machine" []).

(** The end of [sock_s_socketpair], from [init_sock] on; [blk] is the
    block of the call, when one is given. *)
Definition socketpair_result (blk : option (rvalue -> M rvalue)) (sp : Z * Z)
  : M rvalue :=
  let s1 := init_sock (fst sp) in
  let s2 := init_sock (snd sp) in
  let r := rb_assoc_new s1 s2 in
  match blk with
  | Some b => rb_ensure (pair_yield b r) (io_close s1)
  | None => ret r
  end.

(** [sp] is what the array [sp] holds when the function is entered. *)
Definition sock_s_socketpair (domain type protocol : rvalue)
    (blk : option (rvalue -> M rvalue)) (sp : Z * Z) : M rvalue :=
  if HAVE_SOCKETPAIR P then
    ' (d, t) <- setup_domain_and_type domain type ;;
    p <- lift (num2int P protocol) ;;
    ' (n, sp) <- socketpair d t p sp ;;
    e <- get_errno ;;
    ' (n, sp) <- (if (n <? 0) && ((e =? EMFILE P) || (e =? ENFILE P))
                  then rb_gc ;; socketpair d t p sp
                  else ret (n, sp)) ;;
    if n <? 0 then rb_sys_fail "socketpair(2)"
    else socketpair_result blk sp
  else rb_notimplement.

Definition sock_connect (sock : Z) (addr : bytes) : M rvalue :=
  fd <- lift (GetOpenFile sock) ;;
  n <- syscall (ev_ruby_connect fd addr) (fun tr => hp_ruby_connect O tr fd addr) ;;
  if n <? 0 then rb_sys_fail "connect(2)" else ret (INT2FIX P n).

Definition rb_io_set_nonblock (fd : Z) : M unit :=
  call (ev_rb_io_set_nonblock fd)
       (fun tr => match hp_rb_io_set_nonblock O tr fd with
                  | Some e => Raise e
                  | None => Ok tt
                  end).

Definition sock_connect_nonblock (sock : Z) (addr : bytes) : M rvalue :=
  fd <- lift (GetOpenFile sock) ;;
  rb_io_set_nonblock fd ;;
  n <- syscall (ev_connect fd addr) (fun tr => os_connect O tr fd addr) ;;
  if n <? 0 then rb_sys_fail "connect(2)" else ret (INT2FIX P n).

Definition sock_bind (sock : Z) (addr : bytes) : M rvalue :=
  fd <- lift (GetOpenFile sock) ;;
  n <- syscall (ev_bind fd addr) (fun tr => os_bind O tr fd addr) ;;
  if n <? 0 then rb_sys_fail "bind(2)" else ret (INT2FIX P 0).

Definition sock_listen (sock : Z) (log : rvalue) : M rvalue :=
  rb_secure 4 ;;
  backlog <- lift (num2int P log) ;;
  fd <- lift (GetOpenFile sock) ;;
  n <- syscall (ev_listen fd backlog) (fun tr => os_listen O tr fd backlog) ;;
  if n <? 0 then rb_sys_fail "listen(2)" else ret (INT2FIX P 0).

Definition io_socket_addrinfo (sock : rvalue) (buf : bytes) : rvalue :=
  RAddrinfo sock buf.

Definition sock_accept (sock : Z) : M rvalue :=
  fd <- lift (GetOpenFile sock) ;;
  ' (sock2, buf) <- call (ev_s_accept true fd) (fun tr => hp_s_accept O tr true fd) ;;
  ret (rb_assoc_new sock2 (io_socket_addrinfo sock2 buf)).

Definition sock_accept_nonblock (sock : Z) : M rvalue :=
  fd <- lift (GetOpenFile sock) ;;
  ' (sock2, buf) <- call (ev_s_accept_nonblock fd)
                         (fun tr => hp_s_accept_nonblock O tr fd) ;;
  ret (rb_assoc_new sock2 (io_socket_addrinfo sock2 buf)).

Definition sock_sysaccept (sock : Z) : M rvalue :=
  fd <- lift (GetOpenFile sock) ;;
  ' (sock2, buf) <- call (ev_s_accept false fd) (fun tr => hp_s_accept O tr false fd) ;;
  ret (rb_assoc_new sock2 (io_socket_addrinfo sock2 buf)).

Definition sock_recvfrom (sock : Z) (argv : list rvalue) : M rvalue :=
  call (ev_s_recvfrom sock argv) (fun tr => hp_s_recvfrom O tr sock argv).

Definition sock_recvfrom_nonblock (sock : Z) (argv : list rvalue) : M rvalue :=
  call (ev_s_recvfrom_nonblock sock argv)
       (fun tr => hp_s_recvfrom_nonblock O tr sock argv).

End WithHost.
End Lifecycle.

(* ------------------------------------------------------------------ *)
(** ** The C library: [strtoul] and [printf("%ld")] *)

Module CLib.

Definition ISSPACE (c : byte) : bool :=
  let n := byte_to_Z c in (n =? 32) || ((9 <=? n) && (n <=? 13)).

Definition digit_of (c : byte) : option Z :=
  let n := byte_to_Z c in
  if (48 <=? n) && (n <=? 57) then Some (n - 48)
  else if (97 <=? n) && (n <=? 122) then Some (n - 87)
  else if (65 <=? n) && (n <=? 90) then Some (n - 55)
  else None.

Definition is_digit (base : Z) (c : byte) : bool :=
  match digit_of c with
  | Some d => d <? base
  | None => false
  end.

(** The digits at the head of [s]: their value on top of [acc], and how
    many there are. *)
Fixpoint scan_digits (base : Z) (s : bytes) (acc : Z) : Z * nat :=
  match s with
  | [] => (acc, O)
  | c :: r =>
      match digit_of c with
      | Some d =>
          if d <? base
          then let '(v, n) := scan_digits base r (acc * base + d) in (v, S n)
          else (acc, O)
      | None => (acc, O)
      end
  end.

Fixpoint skip_space (s : bytes) : nat :=
  match s with
  | [] => O
  | c :: r => if ISSPACE c then S (skip_space r) else O
  end.

Definition sign_of (s : bytes) : bool * nat :=
  match s with
  | c :: _ =>
      if Byte.eqb c "-"%byte then (true, 1%nat)
      else if Byte.eqb c "+"%byte then (false, 1%nat)
      else (false, O)
  | [] => (false, O)
  end.

Definition hex_prefix (s : bytes) : bool :=
  match s with
  | z :: x :: h :: _ =>
      Byte.eqb z "0"%byte && (Byte.eqb x "x"%byte || Byte.eqb x "X"%byte)
      && is_digit 16 h
  | _ => false
  end.

(** The base of the number and the length of its prefix. *)
Definition base_of (base : Z) (s : bytes) : Z * nat :=
  if base =? 0 then
    if hex_prefix s then (16, 2%nat)
    else match s with
         | z :: _ => if Byte.eqb z "0"%byte then (8, O) else (10, O)
         | [] => (10, O)
         end
  else if (base =? 16) && hex_prefix s then (16, 2%nat)
  else (base, O).

(** [strtoul(str, &end, base)] of ISO C, for an [unsigned long] of [bits]
    bits: the value, and [end - str]. White space, a sign, then for base
    0 a number in the syntax of a C constant: [0x] starts a hexadecimal
    one, [0] an octal one, any other digit a decimal one. With no digits,
    nothing is converted and [end] is [str]. *)
Definition strtoul (bits : Z) (str : bytes) (base : Z) : Z * nat :=
  let ws := skip_space str in
  let s1 := skipn ws str in
  let '(neg, sg) := sign_of s1 in
  let s2 := skipn sg s1 in
  let '(b, pre) := base_of base s2 in
  let '(v, n) := scan_digits b (skipn pre s2) 0 in
  match n with
  | O => (0, O)
  | _ =>
      let ULONG_MAX := 2 ^ bits - 1 in
      (if ULONG_MAX <? v then ULONG_MAX
       else if neg then (- v) mod 2 ^ bits
       else v,
       (ws + sg + pre + n)%nat)
  end.

(** A number in decimal digits with no zero in front, and what it is. *)
Definition is_decimal_digit (c : byte) : bool :=
  (48 <=? byte_to_Z c) && (byte_to_Z c <=? 57).

Definition decimal_literal (s : bytes) : bool :=
  match s with
  | c :: _ => negb (Byte.eqb c "0"%byte) && forallb is_decimal_digit s
  | [] => false
  end.

Definition decimal_value (s : bytes) : Z :=
  fold_left (fun acc c => acc * 10 + (byte_to_Z c - 48)) s 0.

(** What ["%ld"] prints. *)
Definition print_ld (n : Z) : bytes :=
  lit (NilZero.string_of_int (Z.to_int n)).

End CLib.

(* ------------------------------------------------------------------ *)
(** ** The name-resolution bridge *)

Module Resolver.
Section WithHost.

Variable P : platform.
Variable H : helpers.
Variable O : host.

Definition STRTOUL (str : bytes) (base : Z) : Z * nat :=
  CLib.strtoul (long_bits P) str base.

(** An [unsigned long] assigned to an [int]. *)
Definition to_int (v : Z) : Z := wrap_signed 32 v.

(** The value of an optional String argument and its C string. *)
Definition optional_arg (arg : option bytes) : rvalue :=
  match arg with
  | Some s => RString s
  | None => Qnil
  end.

Definition protoname_of (proto : option bytes) : bytes :=
  match proto with
  | Some p => p
  | None => lit "tcp"
  end.

Definition sock_s_gethostbyaddr (addr family : rvalue) : M rvalue :=
  a <- lift (StringValue addr) ;;
  t <- (if negb (NIL_P family) then lift (family_arg H family)
        else if INET6 P && Nat.eqb (length a) 16 then ret (AF_INET6 P)
        else ret (AF_INET P)) ;;
  h <- query (ev_gethostbyaddr a (length a) t)
             (fun tr => os_gethostbyaddr O tr a (length a) t) ;;
  match h with
  | inr msg =>
      if HAVE_HSTRERROR P then lift (rb_raise rb_eSocket "%s" [FStr msg])
      else lift (rb_raise rb_eSocket "host not found" [])
  | inl h =>
      let names :=
        match h_aliases h with
        | Some l => map RString l
        | None => []
        end in
      let addrs :=
        if h_addr_defined P then h_addr_list h else firstn 1 (h_addr_list h) in
      ret (RArray ([RString (h_name h); RArray names; RInteger (h_addrtype h)]
                   ++ map RString addrs))
  end.

Definition sock_s_getservbyname (service proto : rvalue) : M rvalue :=
  service <- lift (StringValue service) ;;
  proto <- (if NIL_P proto then ret None
            else p <- lift (StringValue proto) ;; ret (Some p)) ;;
  servicename <- lift (StringValueCStr service) ;;
  protoname <- match proto with
               | Some p => lift (StringValueCStr p)
               | None => ret (lit "tcp")
               end ;;
  sp <- query (ev_getservbyname servicename protoname)
              (fun tr => os_getservbyname O tr servicename protoname) ;;
  match sp with
  | Some sp => ret (INT2FIX P (Codec.ntohs P (s_port sp)))
  | None =>
      let '(v, end_) := STRTOUL servicename 0 in
      let port := to_int v in
      if (end_ <? length servicename)%nat then
        lift (rb_raise rb_eSocket "no such service %s/%s"
                       [FStr servicename; FStr protoname])
      else ret (INT2FIX P port)
  end.

Definition sock_s_getservbyport (port proto : rvalue) : M rvalue :=
  portnum <- lift (num2long P port) ;;
  if negb (portnum =? portnum mod 65536) then
    lift (rb_raise rb_eRangeError "integer %ld too %s to convert into `int16_t'"
                   [FInt portnum; FStr (lit (if 0 <? portnum then "big" else "small"))])
  else
    protoname <- (if NIL_P proto then ret (lit "tcp")
                  else p <- lift (StringValue proto) ;; lift (StringValueCStr p)) ;;
    let port_n := Codec.htons P (portnum mod 65536) in
    sp <- query (ev_getservbyport port_n protoname)
                (fun tr => os_getservbyport O tr port_n protoname) ;;
    match sp with
    | None =>
        lift (rb_raise rb_eSocket "no such service for port %d/%s"
                       [FInt (to_int portnum); FStr protoname])
    | Some sp => ret (RString (s_name sp))
    end.

(** [rb_getnameinfo(sap, SA_LEN(sap), hbuf, ..., pbuf, ..., fl)]: the error
    code, and the strings left in the two buffers. *)
Definition rb_getnameinfo (sap : bytes) (fl : Z) : M (Z * (bytes * bytes)) :=
  ' (error, (h, p)) <- query (ev_rb_getnameinfo sap (SA_LEN P sap) fl)
                             (fun tr => os_rb_getnameinfo O tr sap (SA_LEN P sap) fl) ;;
  ret (error, (until_nul h, until_nul p)).

Definition ambiguous : exn :=
  Exc rb_eSocket "sockaddr resolved to multiple nodename" [].

(** The loop over [res->ai_next]. *)
Fixpoint check_candidates (fl : Z) (hbuf pbuf : bytes) (rs : list addrinfo)
  : M unit :=
  match rs with
  | [] => ret tt
  | r :: rs' =>
      ' (error, (hbuf2, pbuf2)) <- rb_getnameinfo (ai_addr r) fl ;;
      if negb (error =? 0) then raise_socket_error "getnameinfo" error
      else if negb (bytes_eqb hbuf hbuf2) || negb (bytes_eqb pbuf pbuf2)
      then lift (Raise ambiguous)
      else check_candidates fl hbuf pbuf rs'
  end.

(** From the label [call_nameinfo] on; [res] is the list of [getaddrinfo]
    when there is one. *)
Definition call_nameinfo (fl : Z) (sap : bytes) (res : option (list addrinfo))
  : M rvalue :=
  ' (error, (hbuf, pbuf)) <- rb_getnameinfo sap fl ;;
  if negb (error =? 0) then raise_socket_error "getnameinfo" error
  else
    match res with
    | Some rs => check_candidates fl hbuf pbuf (tl rs)
    | None => ret tt
    end ;;
    ret (rb_assoc_new (RString hbuf) (RString pbuf)).

(** [strncpy(buf, s, sizeof(buf)); buf[sizeof(buf) - 1] = 0] *)
Definition to_cbuf (size : nat) (s : bytes) : bytes :=
  firstn (size - 1) (until_nul s).

(** [hptr]: NULL, or [hbuf] with the host copied in. *)
Definition host_arg (host : rvalue) : result (option bytes) :=
  if NIL_P host then Ok None
  else rbind (StringValue host) (fun s => Ok (Some (to_cbuf 1024 s))).

(** [pptr]: NULL, or [pbuf] with the port printed or copied in. *)
Definition port_arg (port : rvalue) : result (option bytes) :=
  if NIL_P port then Ok None
  else if FIXNUM_P P port then
    rbind (num2long P port) (fun n => Ok (Some (CLib.print_ld n)))
  else rbind (StringValue port) (fun s => Ok (Some (to_cbuf 1024 s))).

Definition af_arg (af : rvalue) : result Z :=
  if NIL_P af then Ok (PF_UNSPEC P) else family_arg H af.

Definition hints_for (fl ai_flags family : Z) : addrinfo_hints :=
  {| hint_flags := ai_flags;
     hint_family := family;
     hint_socktype :=
       if negb (Z.land fl (NI_DGRAM P) =? 0) then SOCK_DGRAM P
       else SOCK_STREAM P |}.

Definition lookup_array (fl : Z) (af port host : rvalue) (ai_flags : Z)
  : M rvalue :=
  hptr <- lift (host_arg host) ;;
  pptr <- lift (port_arg port) ;;
  family <- lift (af_arg af) ;;
  let hints := hints_for fl ai_flags family in
  ' (error, res) <- query (ev_rb_getaddrinfo hptr pptr hints)
                          (fun tr => os_rb_getaddrinfo O tr hptr pptr hints) ;;
  if negb (error =? 0) then raise_socket_error "getaddrinfo" error
  else
    match res with
    | [] => lift Undefined
    | r :: _ => call_nameinfo fl (ai_addr r) (Some res)
    end.

Definition numeric_host_flag : Z :=
  match AI_NUMERICHOST P with
  | Some f => f
  | None => 0
  end.

(** The family, the port and the host of the array, and [hints.ai_flags]:
    a fourth element holds the numeric form, which is not resolved. *)
Definition array_fields (l : list rvalue) : option (rvalue * rvalue * rvalue * Z) :=
  match l with
  | [af; port; host] => Some (af, port, host, 0)
  | af :: port :: host2 :: host3 :: _ =>
      if NIL_P host3 then Some (af, port, host2, 0)
      else Some (af, port, host3, numeric_host_flag)
  | _ => None
  end.

(** The pair of names a resolver that answers [names] leaves in [hbuf]
    and [pbuf] for one candidate. *)
Definition names_of (names : bytes -> bytes * bytes) (r : addrinfo)
  : bytes * bytes :=
  (until_nul (fst (names (ai_addr r))), until_nul (snd (names (ai_addr r)))).

Definition nameinfo_events (fl : Z) (rs : list addrinfo) : list event :=
  map (fun r => ev_rb_getnameinfo (ai_addr r) (SA_LEN P (ai_addr r)) fl) rs.

Definition same_names (a b : bytes * bytes) : bool :=
  bytes_eqb (fst a) (fst b) && bytes_eqb (snd a) (snd b).

Definition flags_arg (flags : rvalue) : result Z :=
  if NIL_P flags then Ok 0 else num2int P flags.

Definition sock_s_getnameinfo (sa flags : rvalue) : M rvalue :=
  fl <- lift (flags_arg flags) ;;
  match sa with
  | RString s =>
      if (sizeof_sockaddr_storage P <? length s)%nat then
        lift (rb_raise rb_eTypeError "sockaddr length too big" [])
      else
        (* [memcpy(&ss, RSTRING_PTR(sa), RSTRING_LEN(sa))] sets the first
           [length s] bytes of [ss], which has no initializer: [SA_LEN]
           of [ss] reads bytes that were never set when [s] is shorter
           than what the macro looks at, and is [SA_LEN] of [s] when it
           is not *)
        if (length s <? SA_LEN_reads P)%nat then lift Undefined
        else if negb (Nat.eqb (length s) (SA_LEN P s)) then
          lift (rb_raise rb_eTypeError "sockaddr size differs - should not happen" [])
        else call_nameinfo fl s None
  | RArray l =>
      match array_fields l with
      | Some (af, port, host, ai_flags) => lookup_array fl af port host ai_flags
      | None =>
          lift (rb_raise rb_eArgError "array size should be 3 or 4, %ld given"
                         [FInt (Z.of_nat (length l))])
      end
  | _ => lift (rb_raise rb_eTypeError "expecting String or Array" [])
  end.

End WithHost.
End Resolver.

(* ------------------------------------------------------------------ *)
(** ** A sample environment, to run the operations on concrete inputs *)

Module Sample.

(** An [/etc/services] of two lines. *)
Definition services : list (bytes * bytes * Z) :=
  [(lit "http", lit "tcp", 80); (lit "syslog", lit "udp", 514)].

Definition find_service (P : platform) (name proto : bytes) : option servent :=
  match find (fun e => bytes_eqb (fst (fst e)) name && bytes_eqb (snd (fst e)) proto)
             services with
  | Some (n, _, port) => Some {| s_name := n; s_port := Codec.htons P port |}
  | None => None
  end.

Definition find_port (P : platform) (port : Z) (proto : bytes) : option servent :=
  match find (fun e => (Codec.htons P (snd e) =? port) && bytes_eqb (snd (fst e)) proto)
             services with
  | Some (n, _, p) => Some {| s_name := n; s_port := port |}
  | None => None
  end.

(** A host whose [socketpair] and [connect] are given, whose resolver
    answers from two tables, and where everything else succeeds. *)
Definition sample_host (P : platform)
    (socketpair : list event -> Z * Z * (Z * Z))
    (connect : Z * Z)
    (addrinfos : list addrinfo)
    (nameinfo : bytes -> Z * (bytes * bytes)) : host := {|
  os_socketpair := fun tr _ _ _ => socketpair tr;
  os_connect := fun _ _ _ => connect;
  os_bind := fun _ _ _ => (0, 0);
  os_listen := fun _ _ _ => (0, 0);
  os_gethostbyaddr := fun _ a _ t =>
    inl {| h_name := lit "localhost"; h_aliases := Some []; h_addrtype := t;
           h_addr_list := [a] |};
  os_getservbyname := fun _ name proto => find_service P name proto;
  os_getservbyport := fun _ port proto => find_port P port proto;
  os_rb_getaddrinfo := fun _ _ _ _ => (0, addrinfos);
  os_rb_getnameinfo := fun _ sa _ _ => nameinfo sa;
  hp_ruby_socket := fun _ _ _ _ => (3, 0);
  hp_ruby_connect := fun _ _ _ => connect;
  hp_rb_io_set_nonblock := fun _ _ => None;
  hp_s_accept := fun _ _ fd => Ok (RSocket (fd + 1), []);
  hp_s_accept_nonblock := fun _ fd => Ok (RSocket (fd + 1), []);
  hp_s_recvfrom := fun _ _ _ => Ok (rb_assoc_new (RString []) Qnil);
  hp_s_recvfrom_nonblock := fun _ _ _ => Ok (rb_assoc_new (RString []) Qnil)
|}.

Definition world0 : world := {| trace := []; errno := 0; safe_level := 0 |}.

(** [socketpair] fails with [e] on its first [k] calls, then succeeds. *)
Definition socketpair_failing (k : nat) (e : Z) (tr : list event)
  : Z * Z * (Z * Z) :=
  let calls :=
    length (filter (fun ev => match ev with ev_socketpair _ _ _ => true | _ => false end) tr) in
  if (calls <? k)%nat then (-1, e, (0, 0)) else (0, 0, (3, 4)).

Definition nameinfo_of (table : list (bytes * (bytes * bytes))) (sa : bytes)
  : Z * (bytes * bytes) :=
  match find (fun e => bytes_eqb (fst e) sa) table with
  | Some (_, names) => (0, names)
  | None => (-2, ([], []))
  end.

(** A host out of descriptors: [socketpair] fails twice with EMFILE. *)
Definition host_exhausted : host :=
  sample_host linux (socketpair_failing 2 24) (0, 0) [] (nameinfo_of []).

(** A host whose [connect] has the connection in progress. *)
Definition host_in_progress : host :=
  sample_host linux (socketpair_failing 0 0) (-1, 115) [] (nameinfo_of []).

(** 127.0.0.1 and 127.0.0.2, port 80. *)
Definition sockaddr_in_1 : bytes :=
  [x02; x00; x00; x50; x7f; x00; x00; x01] ++ repeat x00 8.

Definition sockaddr_in_2 : bytes :=
  [x02; x00; x00; x50; x7f; x00; x00; x02] ++ repeat x00 8.

Definition candidate (sa : bytes) : addrinfo :=
  {| ai_family := 2; ai_socktype := 1; ai_protocol := 6;
     ai_canonname := None; ai_addr := sa |}.

Definition names_table : list (bytes * (bytes * bytes)) :=
  [(sockaddr_in_1, (lit "localhost", lit "www"));
   (sockaddr_in_2, (lit "localhost", lit "www"))].

(** A host where a name has two addresses, both named alike. *)
Definition host_two_addresses : host :=
  sample_host linux (socketpair_failing 0 0) (0, 0)
    [candidate sockaddr_in_1; candidate sockaddr_in_2] (nameinfo_of names_table).

(** A [struct sockaddr_ll]: family AF_PACKET, 17. *)
Definition sockaddr_ll : bytes := [x11; x00] ++ repeat x00 18.

(** The longest path of a [struct sockaddr_un]: one less than the field. *)
Definition longest_path (P : platform) : bytes :=
  repeat "A"%byte (sun_path_size P - 1).

(** A [struct sockaddr_un] whose path fills the field with no NUL. *)
Definition sockaddr_un_full : bytes := [x01; x00] ++ repeat "A"%byte 108.

(** A string one byte longer than [struct sockaddr_un] of Linux: the
    family AF_UNIX, the path "a", and NULs to the end. *)
Definition sockaddr_un_long : bytes := [x01; x00; "a"%byte] ++ repeat x00 108.

End Sample.

(* ------------------------------------------------------------------ *)
(** ** Address lists: [make_addrinfo], [getaddrinfo], [pack_sockaddr_in] *)

(** The [struct addrinfo] that [sock_s_getaddrinfo] fills as hints. *)
Record addrinfo_request := {
  rq_flags : Z;
  rq_family : Z;
  rq_socktype : Z;
  rq_protocol : Z
}.

Module AddrInfo.
Section WithResolver.

Variable P : platform.
Variable H : helpers.

(** [ipaddr(sockaddr, norevlookup)] of the extension: the array of family
    name, port, host and numeric address, or the raise of its lookup. *)
Variable ipaddr : bytes -> bool -> result (list rvalue).

(** [sock_getaddrinfo(host, port, &hints, 0)] and [sock_addrinfo(host,
    port, socktype, flags)] of the extension: the list of the resolver,
    or the raise of its error. *)
Variable sock_getaddrinfo :
  rvalue -> rvalue -> addrinfo_request -> result (list addrinfo).
Variable sock_addrinfo : rvalue -> rvalue -> Z -> Z -> result (list addrinfo).

(** [RARRAY_PTR(ary)[i] = v]: a store into the array as it is. *)
Definition ary_store (ary : list rvalue) (i : nat) (v : rvalue)
  : result (list rvalue) :=
  if (i <? length ary)%nat then Ok (firstn i ary ++ v :: skipn (S i) ary)
  else Undefined.

(** The three [rb_ary_push] that end a turn of the loop. *)
Definition family_socktype_protocol (res : addrinfo) : list rvalue :=
  [INT2FIX P (ai_family res); INT2FIX P (ai_socktype res);
   INT2FIX P (ai_protocol res)].

(** One turn of the loop of [make_addrinfo]. *)
Definition addrinfo_entry (norevlookup : bool) (res : addrinfo) : result rvalue :=
  rbind (ipaddr (ai_addr res) norevlookup) (fun ary =>
  rbind (match ai_canonname res with
         | Some name => ary_store ary 2 (RString (until_nul name))
         | None => Ok ary
         end) (fun ary =>
  Ok (RArray (ary ++ family_socktype_protocol res)))).

Fixpoint addrinfo_entries (norevlookup : bool) (res : list addrinfo)
  : result (list rvalue) :=
  match res with
  | [] => Ok []
  | r :: res' =>
      rbind (addrinfo_entry norevlookup r) (fun ary =>
      rbind (addrinfo_entries norevlookup res') (fun base => Ok (ary :: base)))
  end.

(** [norevlookup] is the global [do_not_reverse_lookup]. *)
Definition make_addrinfo (norevlookup : bool) (res0 : list addrinfo)
  : result rvalue :=
  match res0 with
  | [] => rb_raise rb_eSocket "host not found" []
  | _ => rbind (addrinfo_entries norevlookup res0) (fun base => Ok (RArray base))
  end.

(** The hints of [sock_s_getaddrinfo]: zeroed, then filled from the
    arguments that are given. *)
Definition getaddrinfo_hints (family socktype protocol flags : rvalue)
  : result addrinfo_request :=
  rbind (if NIL_P family then Ok (PF_UNSPEC P) else family_arg H family)
        (fun ai_family =>
  rbind (if negb (NIL_P socktype) then socktype_arg H socktype else Ok 0)
        (fun ai_socktype =>
  rbind (if negb (NIL_P protocol) then num2int P protocol else Ok 0)
        (fun ai_protocol =>
  rbind (if negb (NIL_P flags) then num2int P flags else Ok 0)
        (fun ai_flags =>
  Ok {| rq_flags := ai_flags; rq_family := ai_family;
        rq_socktype := ai_socktype; rq_protocol := ai_protocol |})))).

Definition sock_s_getaddrinfo (norevlookup : bool)
    (host port family socktype protocol flags : rvalue) : result rvalue :=
  rbind (getaddrinfo_hints family socktype protocol flags) (fun hints =>
  rbind (sock_getaddrinfo host port hints) (fun res =>
  make_addrinfo norevlookup res)).

(** [rb_str_new((char * )res->ai_addr, res->ai_addrlen)] *)
Definition sock_s_pack_sockaddr_in (port host : rvalue) : result bytes :=
  rbind (sock_addrinfo host port 0 0) (fun res =>
  match res with
  | [] => Undefined
  | r :: _ => Ok (ai_addr r)
  end).

End WithResolver.
End AddrInfo.

(* ------------------------------------------------------------------ *)
(** ** The host name *)

Module Hostname.

(** [sock_gethostname], in the three forms [configure] chooses from.
    [buf] is the array of 1024 bytes as the function finds it on its
    stack; [os] is what [gethostname(buf, 1023)] returns, the [errno] it
    leaves and the bytes it writes, or the [nodename] [uname] fills in. *)
Definition sock_gethostname (HAVE_GETHOSTNAME HAVE_UNAME : bool)
    (buf : bytes) (os : Z * Z * bytes) : M rvalue :=
  let '(n, en, written) := os in
  if HAVE_GETHOSTNAME then
    rb_secure 3 ;;
    (fun w =>
       let buf := store 0 (firstn 1023 written) buf in
       let w' := {| trace := trace w;
                    errno := if n <? 0 then en else errno w;
                    safe_level := safe_level w |} in
       if n <? 0 then rb_sys_fail "gethostname" w'
       else
         let buf := store 1023 [x00] buf in
         (Ok (RString (until_nul buf)), w'))
  else if HAVE_UNAME then
    rb_secure 3 ;;
    ret (RString (until_nul written))
  else Lifecycle.rb_notimplement.

End Hostname.

(** What [GetOpenFile] raises for a socket that was closed. *)
Definition closed_stream : exn := Exc rb_eIOError "closed stream" [].

(* ------------------------------------------------------------------ *)
(** ** More sample environments *)

Module Runs.
Import Sample.

(** A host with descriptors to spare. *)
Definition host_plain : host :=
  sample_host linux (socketpair_failing 0 0) (0, 0) [] (nameinfo_of []).

(** A host where [fcntl] fails: no descriptor can be marked. *)
Definition host_unmarkable : host := {|
  os_socketpair := os_socketpair host_plain;
  os_connect := os_connect host_plain;
  os_bind := os_bind host_plain;
  os_listen := os_listen host_plain;
  os_gethostbyaddr := os_gethostbyaddr host_plain;
  os_getservbyname := os_getservbyname host_plain;
  os_getservbyport := os_getservbyport host_plain;
  os_rb_getaddrinfo := os_rb_getaddrinfo host_plain;
  os_rb_getnameinfo := os_rb_getnameinfo host_plain;
  hp_ruby_socket := hp_ruby_socket host_plain;
  hp_ruby_connect := hp_ruby_connect host_plain;
  hp_rb_io_set_nonblock := fun _ _ => Some (SysFail "fcntl(2)" 9);
  hp_s_accept := hp_s_accept host_plain;
  hp_s_accept_nonblock := hp_s_accept_nonblock host_plain;
  hp_s_recvfrom := hp_s_recvfrom host_plain;
  hp_s_recvfrom_nonblock := hp_s_recvfrom_nonblock host_plain
|}.

(** 127.0.0.3, port 80: an address the resolver has no name for. *)
Definition sockaddr_in_3 : bytes :=
  [x02; x00; x00; x50; x7f; x00; x00; x03] ++ repeat x00 8.

(** A host where a name has two addresses and the second has no name. *)
Definition host_unnamed_address : host :=
  sample_host linux (socketpair_failing 0 0) (0, 0)
    [candidate sockaddr_in_1; candidate sockaddr_in_3] (nameinfo_of names_table).

(** A block that raises. *)
Definition raising_block : rvalue -> M rvalue :=
  fun _ => lift (Raise (Thrown (RString (lit "stop")))).

(** An [ipaddr] that gives the numeric form only, and a resolver of one
    name with two addresses. *)
Definition ipaddr_numeric (sa : bytes) (norevlookup : bool)
  : result (list rvalue) :=
  let a := RString (load 4 4 sa) in
  Ok [RString (lit "AF_INET"); RInteger (int_value BigEndian (load 2 2 sa)); a; a].

Definition two_candidates : list addrinfo :=
  [{| ai_family := 2; ai_socktype := 1; ai_protocol := 6;
      ai_canonname := Some (lit "localhost"); ai_addr := sockaddr_in_1 |};
   candidate sockaddr_in_2].

Definition resolver_two : rvalue -> rvalue -> addrinfo_request
                          -> result (list addrinfo) :=
  fun _ _ _ => Ok two_candidates.

Definition resolver_in : rvalue -> rvalue -> Z -> Z -> result (list addrinfo) :=
  fun _ _ _ _ => Ok two_candidates.

End Runs.

Unset Implicit Arguments.
Import Codec Lifecycle Resolver CLib.

(* ================================================================== *)
(** * Properties *)

(* ------------------------------------------------------------------ *)
(** ** Memory *)

Section MemFacts.

Lemma byte_to_Z_range (b : byte) : 0 <= byte_to_Z b < 256.
Proof.
  unfold byte_to_Z. pose proof (Byte.to_N_bounded b). lia.
Qed.

Lemma byte_of_Z (z : Z) : byte_to_Z (Z_to_byte z) = z mod 256.
Proof.
  unfold byte_to_Z, Z_to_byte.
  assert (Hr : 0 <= z mod 256 < 256) by (apply Z.mod_pos_bound; lia).
  destruct (Byte.of_N (Z.to_N (z mod 256))) as [b|] eqn:E.
  - apply Byte.to_of_N in E. rewrite E. lia.
  - exfalso.
    pose proof (Byte.to_of_N_option_map (Z.to_N (z mod 256))) as Hm.
    rewrite E in Hm. simpl in Hm.
    destruct (N.leb_spec (Z.to_N (z mod 256)) 255); [discriminate | lia].
Qed.

Lemma is_nul_true (b : byte) : is_nul b = true <-> b = x00.
Proof.
  unfold is_nul. split; intro E.
  - now apply Byte.byte_dec_bl in E.
  - subst. reflexivity.
Qed.

Lemma length_le_bytes (n : nat) : forall z, length (le_bytes n z) = n.
Proof. induction n; simpl; intros; [reflexivity | now rewrite IHn]. Qed.

Lemma length_int_bytes e n z : length (int_bytes e n z) = n.
Proof.
  destruct e; simpl; [| rewrite length_rev]; apply length_le_bytes.
Qed.

Lemma le_value_bytes (n : nat) :
  forall z, 0 <= z < 256 ^ Z.of_nat n -> le_value (le_bytes n z) = z.
Proof.
  induction n; intros z Hz.
  - simpl in *. lia.
  - rewrite Nat2Z.inj_succ, Z.pow_succ_r in Hz by lia.
    cbn [le_bytes le_value]. rewrite byte_of_Z, IHn.
    + pose proof (Z.div_mod z 256). lia.
    + split; [apply Z.div_pos; lia | apply Z.div_lt_upper_bound; lia].
Qed.

Lemma int_value_bytes e n z :
  0 <= z < 256 ^ Z.of_nat n -> int_value e (int_bytes e n z) = z.
Proof.
  intro Hz. destruct e; simpl; [| rewrite rev_involutive]; now apply le_value_bytes.
Qed.

Lemma le_bytes_value (bs : bytes) : le_bytes (length bs) (le_value bs) = bs.
Proof.
  induction bs as [| b r IH]; [reflexivity |].
  cbn [length le_bytes le_value].
  pose proof (byte_to_Z_range b) as Hb.
  assert (Hm : (byte_to_Z b + 256 * le_value r) mod 256 = byte_to_Z b)
    by (symmetry; apply Z.mod_unique_pos with (q := le_value r); lia).
  assert (Hd : (byte_to_Z b + 256 * le_value r) / 256 = le_value r)
    by (symmetry; apply Z.div_unique_pos with (r := byte_to_Z b); lia).
  rewrite Hd, IH. f_equal.
  unfold Z_to_byte. rewrite Hm.
  unfold byte_to_Z. now rewrite N2Z.id, Byte.of_to_N.
Qed.

Lemma int_bytes_value e (bs : bytes) :
  int_bytes e (length bs) (int_value e bs) = bs.
Proof.
  destruct e; simpl.
  - apply le_bytes_value.
  - rewrite <- (length_rev bs), le_bytes_value. apply rev_involutive.
Qed.

Lemma until_nul_no_nul (m : bytes) : has_nul m = false -> until_nul m = m.
Proof.
  induction m as [| b r IH]; simpl; [reflexivity |].
  intro E. apply orb_false_elim in E as [E1 E2].
  rewrite E1. now rewrite IH.
Qed.

Lemma until_nul_app_nul (m r : bytes) :
  has_nul m = false -> until_nul (m ++ x00 :: r) = m.
Proof.
  induction m as [| b m IH]; simpl; [reflexivity |].
  intro E. apply orb_false_elim in E as [E1 E2].
  rewrite E1. now rewrite IH.
Qed.

Lemma strlen_le (m : bytes) : (strlen m <= length m)%nat.
Proof.
  unfold strlen. induction m as [| b r IH]; simpl; [lia |].
  destruct (is_nul b); simpl; lia.
Qed.

Lemma strlen_full (m : bytes) : strlen m = length m <-> has_nul m = false.
Proof.
  unfold strlen. induction m as [| b r IH]; simpl; [tauto |].
  destruct (is_nul b); simpl.
  - split; [lia | discriminate].
  - rewrite <- IH. lia.
Qed.

Lemma length_store off bs (buf : bytes) :
  (off + length bs <= length buf)%nat -> length (store off bs buf) = length buf.
Proof.
  intro Hle. unfold store.
  rewrite !length_app, length_firstn, length_skipn. lia.
Qed.

Lemma skipn_store off bs (buf : bytes) :
  (off <= length buf)%nat ->
  skipn off (store off bs buf) = bs ++ skipn (off + length bs) buf.
Proof.
  intro Hle. unfold store.
  rewrite skipn_app, length_firstn, Nat.min_l by lia.
  rewrite Nat.sub_diag. simpl.
  rewrite skipn_all2; [reflexivity | rewrite length_firstn; lia].
Qed.

Lemma load_app_l off n (l1 l2 : bytes) :
  (off + n <= length l1)%nat -> load off n (l1 ++ l2) = load off n l1.
Proof.
  intro Hle. unfold load.
  rewrite skipn_app, firstn_app, length_skipn.
  replace (off - length l1)%nat with O by lia.
  replace (n - (length l1 - off))%nat with O by lia.
  simpl. apply app_nil_r.
Qed.

Lemma load_store_before off n off' bs (buf : bytes) :
  (off + n <= off')%nat -> (off' <= length buf)%nat ->
  load off n (store off' bs buf) = load off n buf.
Proof.
  intros H1 H2. unfold store.
  assert (Hl : (off + n <= length (firstn off' buf))%nat)
    by (rewrite length_firstn; lia).
  rewrite load_app_l by exact Hl.
  rewrite <- (firstn_skipn off' buf) at 2.
  now rewrite load_app_l by exact Hl.
Qed.

Lemma load_store_same off bs (buf : bytes) :
  (off <= length buf)%nat -> load off (length bs) (store off bs buf) = bs.
Proof.
  intro Hle. unfold load. rewrite skipn_store by exact Hle.
  rewrite firstn_app, Nat.sub_diag, firstn_all. simpl. apply app_nil_r.
Qed.

Lemma skipn_repeat_nul n k : skipn n (repeat x00 k) = repeat x00 (k - n).
Proof.
  revert k. induction n; intro k; simpl.
  - now rewrite Nat.sub_0_r.
  - destruct k; simpl; [reflexivity | apply IHn].
Qed.

Lemma firstn_repeat_nul a b :
  (a <= b)%nat -> firstn a (repeat x00 b) = repeat x00 a.
Proof.
  revert b. induction a; intros b Hb; [reflexivity |].
  destruct b; [lia |]. simpl. f_equal. apply IHa. lia.
Qed.

Lemma strncpy_short (m : bytes) n :
  has_nul m = false -> (length m <= n)%nat ->
  strncpy n m = m ++ repeat x00 (n - length m).
Proof.
  intros Hn Hle. unfold strncpy. rewrite until_nul_no_nul by exact Hn.
  rewrite firstn_app, firstn_all2 by exact Hle. f_equal.
  apply firstn_repeat_nul. lia.
Qed.

End MemFacts.

Section CodecFacts.

Variable P : platform.
Variable H : helpers.

Lemma no_nul_ends_at_end (addr : bytes) off :
  (off <= length addr)%nat ->
  ends_at_end addr (AddrPtr off) = Some (negb (has_nul (skipn off addr))).
Proof.
  intro Hle. unfold ends_at_end.
  destruct (Nat.leb_spec off (length addr)) as [_ | Hlt]; [| lia].
  f_equal.
  pose proof (strlen_le (skipn off addr)) as Hs.
  pose proof (strlen_full (skipn off addr)) as Hf.
  rewrite length_skipn in Hs, Hf.
  destruct (has_nul (skipn off addr)); simpl.
  - apply Nat.eqb_neq. intro E.
    assert (true = false) by (apply Hf; lia). discriminate.
  - apply Nat.eqb_eq. assert (Hq : false = false) by reflexivity.
    apply Hf in Hq. lia.
Qed.

Lemma cptr_eqb_eq (p : cptr) off : cptr_eqb p (AddrPtr off) = true <-> p = AddrPtr off.
Proof.
  destruct p as [o | s]; simpl.
  - rewrite Nat.eqb_eq. split; [now intros -> | now intros [= ->]].
  - split; discriminate.
Qed.

(** The body of [sock_s_unpack_sockaddr_un] behind its three guards. *)
Lemma unpack_un_guards_passed (addr : bytes) :
  (family_tag_end P <= length addr)%nat ->
  sa_family P addr = AF_UNIX P ->
  (length addr <= sizeof_sockaddr_un P)%nat ->
  sock_s_unpack_sockaddr_un P H addr =
    let sun_path := unixpath H addr in
    let rb_str_new2 :=
      match c_str_at addr sun_path with
      | Some path => Ok path
      | None => Undefined
      end in
    if Nat.eqb (sizeof_sockaddr_un P) (length addr)
       && cptr_eqb sun_path (AddrPtr (sun_path_offset P)) then
      match ends_at_end addr sun_path with
      | Some true => Raise not_nul_terminated
      | Some false => rb_str_new2
      | None => Undefined
      end
    else rb_str_new2.
Proof.
  intros Ht Hf Hl. unfold sock_s_unpack_sockaddr_un.
  destruct (Nat.ltb_spec (length addr) (family_tag_end P)); [lia |].
  rewrite Hf, Z.eqb_refl. simpl.
  destruct (Nat.ltb_spec (sizeof_sockaddr_un P) (length addr)); [lia |].
  reflexivity.
Qed.

(** C2: decoding an AF_UNIX sockaddr (the family tag is there and says
    AF_UNIX). [unpack_sockaddr_un] raises "sockaddr_un.sun_path not NUL
    terminated" exactly when the string has the size of [struct
    sockaddr_un], the path [unixpath] gives starts at [sun_path], and no
    NUL lies between there and the end of the string. In every other case
    of a string no longer than the structure, a path with no NUL up to the
    end of the string is returned whole, and a path with a NUL is returned
    up to its NUL, inside the string or outside of it. A string longer
    than the structure is refused with TypeError "too long sockaddr_un",
    whatever its path is. *)
Theorem unpack_sockaddr_un_nul_rule (addr : bytes) :
  platform_wf P ->
  (family_tag_end P <= length addr)%nat ->
  sa_family P addr = AF_UNIX P ->
  (sock_s_unpack_sockaddr_un P H addr = Raise not_nul_terminated <->
     length addr = sizeof_sockaddr_un P /\
     unixpath H addr = AddrPtr (sun_path_offset P) /\
     has_nul (skipn (sun_path_offset P) addr) = false)
  /\ (forall off,
        (length addr <= sizeof_sockaddr_un P)%nat ->
        unixpath H addr = AddrPtr off -> (off <= length addr)%nat ->
        has_nul (skipn off addr) = false ->
        ~ (length addr = sizeof_sockaddr_un P /\ off = sun_path_offset P) ->
        sock_s_unpack_sockaddr_un P H addr = Ok (skipn off addr))
  /\ (forall off,
        (length addr <= sizeof_sockaddr_un P)%nat ->
        unixpath H addr = AddrPtr off -> (off <= length addr)%nat ->
        has_nul (skipn off addr) = true ->
        sock_s_unpack_sockaddr_un P H addr = Ok (until_nul (skipn off addr)))
  /\ (forall s,
        (length addr <= sizeof_sockaddr_un P)%nat ->
        unixpath H addr = ConstPtr s ->
        sock_s_unpack_sockaddr_un P H addr = Ok (until_nul s))
  /\ ((sizeof_sockaddr_un P < length addr)%nat ->
      sock_s_unpack_sockaddr_un P H addr
      = Raise (Exc rb_eTypeError "too long sockaddr_un - %ld longer than %d"
                   [FInt (Z.of_nat (length addr));
                    FInt (Z.of_nat (sizeof_sockaddr_un P))])).
Proof.
  intros Hwf Ht Hf.
  assert (Hoff : (sun_path_offset P <= sizeof_sockaddr_un P)%nat)
    by (pose proof (wf_path_inside Hwf); lia).
  split; [| split; [| split; [| split]]].
  - split.
    + intro E.
      destruct (Nat.ltb_spec (sizeof_sockaddr_un P) (length addr)) as [Hlong | Hl].
      { unfold sock_s_unpack_sockaddr_un in E.
        destruct (Nat.ltb_spec (length addr) (family_tag_end P)); [lia |].
        rewrite Hf, Z.eqb_refl in E. simpl in E.
        destruct (Nat.ltb_spec (sizeof_sockaddr_un P) (length addr)); [| lia].
        discriminate. }
      rewrite unpack_un_guards_passed in E by assumption. cbv zeta in E.
      destruct (Nat.eqb_spec (sizeof_sockaddr_un P) (length addr)) as [Hs | Hs];
        simpl in E.
      * destruct (cptr_eqb (unixpath H addr) (AddrPtr (sun_path_offset P))) eqn:Ep.
        -- apply cptr_eqb_eq in Ep. rewrite Ep in E.
           rewrite no_nul_ends_at_end in E by lia.
           destruct (has_nul (skipn (sun_path_offset P) addr)); simpl in E.
           ++ unfold c_str_at in E.
              destruct (Nat.leb_spec (sun_path_offset P) (length addr));
                discriminate.
           ++ auto.
        -- destruct (c_str_at addr (unixpath H addr)); discriminate.
      * destruct (c_str_at addr (unixpath H addr)); discriminate.
    + intros (Hs & Ep & Hn).
      rewrite unpack_un_guards_passed by (assumption || lia). cbv zeta.
      rewrite Ep, <- Hs, Nat.eqb_refl. cbn [andb cptr_eqb]. rewrite Nat.eqb_refl.
      rewrite no_nul_ends_at_end by lia. now rewrite Hn.
  - intros off Hl Ep Ho Hn Hother.
    rewrite unpack_un_guards_passed by assumption. cbv zeta.
    rewrite Ep. unfold c_str_at.
    destruct (Nat.leb_spec off (length addr)); [| lia].
    rewrite until_nul_no_nul by exact Hn.
    destruct (Nat.eqb_spec (sizeof_sockaddr_un P) (length addr)) as [Hs | Hs];
      simpl; [| reflexivity].
    destruct (Nat.eqb_spec off (sun_path_offset P)) as [Heq | Hne];
      [| reflexivity].
    exfalso. apply Hother. now split.
  - intros off Hl Ep Ho Hn.
    rewrite unpack_un_guards_passed by assumption. cbv zeta.
    rewrite Ep. unfold c_str_at.
    destruct (Nat.leb_spec off (length addr)); [| lia].
    destruct (Nat.eqb (sizeof_sockaddr_un P) (length addr)
              && cptr_eqb (AddrPtr off) (AddrPtr (sun_path_offset P)));
      [| reflexivity].
    rewrite no_nul_ends_at_end by exact Ho. now rewrite Hn.
  - intros s Hl Ep.
    rewrite unpack_un_guards_passed by assumption. cbv zeta.
    rewrite Ep. cbn [c_str_at cptr_eqb]. now rewrite andb_false_r.
  - intro Hlong. unfold sock_s_unpack_sockaddr_un.
    destruct (Nat.ltb_spec (length addr) (family_tag_end P)); [lia |].
    rewrite Hf, Z.eqb_refl. simpl.
    destruct (Nat.ltb_spec (sizeof_sockaddr_un P) (length addr)); [| lia].
    reflexivity.
Qed.


Lemma pack_sockaddr_un_ok (path : bytes) :
  has_nul path = false -> (length path < sun_path_size P)%nat ->
  sock_s_pack_sockaddr_un P path =
    Ok (store (sun_path_offset P) (strncpy (sun_path_size P - 1) path)
          (store (sa_family_offset P)
             (int_bytes (byte_order P) (sa_family_size P) (AF_UNIX P))
             (repeat x00 (sizeof_sockaddr_un P)))).
Proof.
  intros Hn Hl. unfold sock_s_pack_sockaddr_un, StringValueCStr.
  rewrite Hn. simpl.
  assert (Hs : strlen path = length path) by now apply strlen_full.
  rewrite Hs.
  destruct (Nat.leb_spec (sun_path_size P) (length path)); [lia | reflexivity].
Qed.

(** C3: for a path with no NUL byte, [pack_sockaddr_un] raises "too long
    unix socket path" exactly when [strlen(path) >= sizeof(sun_path)]; a
    path shorter than the field is packed into a string of the size of the
    structure, and [unpack_sockaddr_un] gives the path back from it
    (where [unixpath] points at the path field of that string). *)
Theorem pack_unpack_sockaddr_un (path : bytes) :
  platform_wf P ->
  has_nul path = false ->
  (sock_s_pack_sockaddr_un P path = Raise (too_long_path P) <->
     (sun_path_size P <= strlen path)%nat)
  /\ ((length path < sun_path_size P)%nat ->
      exists addr,
        sock_s_pack_sockaddr_un P path = Ok addr /\
        length addr = sizeof_sockaddr_un P /\
        (unixpath H addr = AddrPtr (sun_path_offset P) ->
         sock_s_unpack_sockaddr_un P H addr = Ok path)).
Proof.
  intros Hwf Hn.
  assert (Hs : strlen path = length path) by now apply strlen_full.
  destruct Hwf as [Hfp Hpi Haf].
  split.
  - unfold sock_s_pack_sockaddr_un, StringValueCStr. rewrite Hn. simpl.
    destruct (Nat.leb_spec (sun_path_size P) (strlen path)); split;
      intro; (reflexivity || lia || discriminate || assumption).
  - intro Hl. eexists. split; [now apply pack_sockaddr_un_ok |].
    set (fam := int_bytes (byte_order P) (sa_family_size P) (AF_UNIX P)).
    set (zero := repeat x00 (sizeof_sockaddr_un P)).
    set (buf1 := store (sa_family_offset P) fam zero).
    set (cp := strncpy (sun_path_size P - 1) path).
    assert (Lf : length fam = sa_family_size P) by apply length_int_bytes.
    assert (Lz : length zero = sizeof_sockaddr_un P) by apply repeat_length.
    assert (L1 : length buf1 = sizeof_sockaddr_un P)
      by (unfold buf1; rewrite length_store; lia).
    assert (Ec : cp = path ++ repeat x00 (sun_path_size P - 1 - length path))
      by (apply strncpy_short; [exact Hn | lia]).
    assert (Lc : length cp = (sun_path_size P - 1)%nat)
      by (rewrite Ec, length_app, repeat_length; lia).
    assert (La : length (store (sun_path_offset P) cp buf1) = sizeof_sockaddr_un P)
      by (rewrite length_store; lia).
    split; [exact La |].
    intro Ep.
    assert (Etail : skipn (sun_path_offset P) (store (sun_path_offset P) cp buf1)
                    = path ++ x00 :: repeat x00 (sizeof_sockaddr_un P
                                                 - sun_path_offset P
                                                 - length path - 1)).
    { rewrite skipn_store by lia. rewrite Lc, Ec, <- app_assoc. f_equal.
      unfold buf1, store.
      rewrite !skipn_app, length_firstn, Lf, Lz.
      rewrite (skipn_all2 (firstn _ zero)) by (rewrite length_firstn; lia).
      rewrite (skipn_all2 fam) by lia.
      rewrite skipn_skipn. unfold zero. rewrite skipn_repeat_nul.
      simpl. rewrite <- repeat_app.
      change (x00 :: repeat x00 ?k) with (repeat x00 (S k)).
      f_equal. lia. }
    assert (Hnul : has_nul (skipn (sun_path_offset P)
                              (store (sun_path_offset P) cp buf1)) = true).
    { rewrite Etail. unfold has_nul. rewrite existsb_app. simpl.
      apply orb_true_r. }
    rewrite unpack_un_guards_passed.
    + cbv zeta. rewrite Ep. unfold c_str_at. rewrite La.
      destruct (Nat.leb_spec (sun_path_offset P) (sizeof_sockaddr_un P)); [| lia].
      rewrite Etail, until_nul_app_nul by exact Hn.
      rewrite Nat.eqb_refl. cbn [andb cptr_eqb]. rewrite Nat.eqb_refl.
      rewrite no_nul_ends_at_end by lia. rewrite Hnul. reflexivity.
    + unfold family_tag_end. lia.
    + unfold sa_family.
      rewrite load_store_before by lia.
      unfold buf1. rewrite <- Lf, load_store_same by lia.
      apply int_value_bytes. exact Haf.
    + lia.
Qed.

(** C8: for a string too short to hold the family tag, both
    [unpack_sockaddr_in] and [unpack_sockaddr_un] raise ArgumentError "too
    short sockaddr": a raise, and nothing undefined. *)
Theorem unpack_too_short (addr : bytes) :
  (length addr < sa_family_offset P + sa_family_size P)%nat ->
  sock_s_unpack_sockaddr_in P H addr
    = Raise (Exc rb_eArgError "too short sockaddr" [])
  /\ sock_s_unpack_sockaddr_un P H addr
    = Raise (Exc rb_eArgError "too short sockaddr" []).
Proof.
  intro Hs. unfold sock_s_unpack_sockaddr_in, sock_s_unpack_sockaddr_un,
    family_tag_end.
  destruct (Nat.ltb_spec (length addr) (sa_family_offset P + sa_family_size P));
    [split; reflexivity | lia].
Qed.

(** C4, as amended: for a string long enough to hold the family tag whose
    tag is none of AF_INET, AF_INET6 (where the build has IPv6) and
    AF_UNIX, decoding raises: [unpack_sockaddr_in] an ArgumentError "not
    an AF_INET/AF_INET6 sockaddr" ("not an AF_INET sockaddr" without
    IPv6), [unpack_sockaddr_un] an ArgumentError "not an AF_UNIX
    sockaddr", and [sock_sockaddr] a SocketError "unknown socket
    family". *)
Theorem unknown_family_raises (addr : bytes) :
  (family_tag_end P <= length addr)%nat ->
  is_inet_family P (sa_family P addr) = false ->
  sa_family P addr <> AF_UNIX P ->
  sock_s_unpack_sockaddr_in P H addr
    = Raise (Exc rb_eArgError
               (if INET6 P then "not an AF_INET/AF_INET6 sockaddr"
                else "not an AF_INET sockaddr") [])
  /\ sock_s_unpack_sockaddr_un P H addr
    = Raise (Exc rb_eArgError "not an AF_UNIX sockaddr" [])
  /\ sock_sockaddr P addr
    = Raise (Exc rb_eSocket "unknown socket family:%d" [FInt (sa_family P addr)]).
Proof.
  intros Ht Hi Hu. unfold is_inet_family in Hi.
  apply orb_false_elim in Hi as [H4 H6].
  unfold sock_s_unpack_sockaddr_in, sock_s_unpack_sockaddr_un, sock_sockaddr.
  destruct (Nat.ltb_spec (length addr) (family_tag_end P)); [lia |].
  rewrite H4. apply Z.eqb_neq in Hu. rewrite Hu. simpl.
  destruct (INET6 P); simpl in *; [rewrite H6 |]; repeat split; reflexivity.
Qed.

End CodecFacts.

(* ------------------------------------------------------------------ *)
(** ** The socket life cycle *)

Lemma skipn_app_length (tr evs : list event) : skipn (length tr) (tr ++ evs) = evs.
Proof.
  rewrite skipn_app, skipn_all, Nat.sub_diag. reflexivity.
Qed.

Lemma skipn_self (tr : list event) : skipn (length tr) tr = [].
Proof. apply skipn_all. Qed.

Lemma straight_line_nil calls : straight_line calls [].
Proof. now exists O. Qed.

Lemma straight_line_all calls : straight_line calls calls.
Proof. exists (length calls). symmetry. apply firstn_all. Qed.

Lemma straight_line_one e calls : straight_line (e :: calls) [e].
Proof. now exists 1%nat. Qed.

Create HintDb sock.
#[local] Hint Resolve straight_line_nil straight_line_all straight_line_one : sock.

Ltac case_step :=
  match goal with
  | |- context [match ?x with _ => _ end] =>
      lazymatch x with
      | context [match _ with _ => _ end] => fail
      | _ => destruct x eqn:?
      end
  end.

Ltac run_op :=
  unfold issued, bind, lift, ret, syscall, call, query, rb_sys_fail, rb_secure,
    emit, rb_raise;
  repeat (case_step; cbn beta iota delta [fst snd trace errno safe_level]);
  cbn beta iota delta [fst snd trace errno safe_level];
  rewrite ?skipn_app_length, ?skipn_self, <- ?app_assoc, ?skipn_app_length;
  cbn [app]; auto with sock.

Section LifecycleFacts.
Variable P : platform.
Variable H : helpers.
Variable O : host.

Lemma sock_connect_straight sock addr w :
  straight_line [ev_ruby_connect sock addr] (issued (sock_connect P O sock addr) w).
Proof.
  unfold sock_connect, GetOpenFile. run_op.
Qed.

Lemma sock_connect_nonblock_straight sock addr w :
  straight_line [ev_rb_io_set_nonblock sock; ev_connect sock addr]
    (issued (sock_connect_nonblock P O sock addr) w).
Proof.
  unfold sock_connect_nonblock, rb_io_set_nonblock, GetOpenFile. run_op.
Qed.

Lemma sock_initialize_straight domain type protocol w :
  exists d t p,
    straight_line [ev_ruby_socket d t p]
      (issued (sock_initialize P H O domain type protocol) w).
Proof.
  unfold sock_initialize, setup_domain_and_type.
  destruct (family_arg H domain) as [d | |] eqn:Ed;
  destruct (socktype_arg H type) as [t | |] eqn:Et;
  destruct (num2int P protocol) as [p | |] eqn:Ep;
  first [exists d | exists 0]; first [exists t | exists 0];
  first [exists p | exists 0]; run_op.
Qed.

Lemma sock_bind_straight sock addr w :
  straight_line [ev_bind sock addr] (issued (sock_bind P O sock addr) w).
Proof. unfold sock_bind, GetOpenFile. run_op. Qed.

Lemma sock_listen_straight sock log w :
  exists backlog,
    straight_line [ev_listen sock backlog] (issued (sock_listen P O sock log) w).
Proof.
  unfold sock_listen, GetOpenFile.
  destruct (num2int P log) as [n | |] eqn:En; first [exists n | exists 0]; run_op.
Qed.

Lemma sock_accept_straight sock w :
  straight_line [ev_s_accept true sock] (issued (sock_accept O sock) w)
  /\ straight_line [ev_s_accept_nonblock sock] (issued (sock_accept_nonblock O sock) w)
  /\ straight_line [ev_s_accept false sock] (issued (sock_sysaccept O sock) w).
Proof.
  unfold sock_accept, sock_accept_nonblock, sock_sysaccept, GetOpenFile.
  repeat split; run_op.
Qed.

Lemma sock_recvfrom_straight sock argv w :
  straight_line [ev_s_recvfrom sock argv] (issued (sock_recvfrom O sock argv) w)
  /\ straight_line [ev_s_recvfrom_nonblock sock argv]
       (issued (sock_recvfrom_nonblock O sock argv) w).
Proof.
  unfold sock_recvfrom, sock_recvfrom_nonblock. split; run_op.
Qed.

Lemma socketpair_run domain type protocol blk sp w d t p n1 e1 sp1 :
  HAVE_SOCKETPAIR P = true ->
  family_arg H domain = Ok d ->
  socktype_arg H type = Ok t ->
  num2int P protocol = Ok p ->
  os_socketpair O (trace w) d t p = (n1, e1, sp1) ->
  (0 <= n1 ->
   sock_s_socketpair P H O domain type protocol blk sp w
   = socketpair_result blk sp1 (after_calls w [ev_socketpair d t p] (errno w)))
  /\ (n1 < 0 -> e1 <> EMFILE P -> e1 <> ENFILE P ->
      sock_s_socketpair P H O domain type protocol blk sp w
      = (Raise (SysFail "socketpair(2)" e1), after_calls w [ev_socketpair d t p] e1))
  /\ (n1 < 0 -> e1 = EMFILE P \/ e1 = ENFILE P ->
      forall n2 e2 sp2,
        os_socketpair O (trace w ++ [ev_socketpair d t p; ev_rb_gc]) d t p
          = (n2, e2, sp2) ->
        (n2 < 0 ->
         sock_s_socketpair P H O domain type protocol blk sp w
         = (Raise (SysFail "socketpair(2)" e2),
            after_calls w [ev_socketpair d t p; ev_rb_gc; ev_socketpair d t p] e2))
        /\ (0 <= n2 ->
            sock_s_socketpair P H O domain type protocol blk sp w
            = socketpair_result blk sp2
                (after_calls w [ev_socketpair d t p; ev_rb_gc; ev_socketpair d t p] e1))).
Proof.
  intros Hh Ed Et Ep E1.
  unfold sock_s_socketpair, setup_domain_and_type, socketpair, rb_gc, query,
    get_errno, bind, lift, ret, rb_sys_fail, emit, after_calls, socketpair_result.
  rewrite Hh, Ed, Et, Ep.
  cbn beta iota delta [fst snd trace errno safe_level]. rewrite E1.
  cbn beta iota delta [fst snd trace errno safe_level].
  split; [| split].
  - intro Hn. destruct (Z.ltb_spec n1 0); [lia |].
    cbn beta iota delta [andb fst snd trace errno safe_level].
    destruct (Z.ltb_spec n1 0); [lia |]. reflexivity.
  - intros Hn He1 He2. destruct (Z.ltb_spec n1 0); [| lia].
    apply Z.eqb_neq in He1, He2. rewrite He1, He2.
    cbn beta iota delta [andb orb fst snd trace errno safe_level].
    destruct (Z.ltb_spec n1 0); [| lia]. reflexivity.
  - intros Hn He n2 e2 sp2 E2. destruct (Z.ltb_spec n1 0); [| lia].
    assert (Hor : (e1 =? EMFILE P) || (e1 =? ENFILE P) = true)
      by (apply orb_true_iff; rewrite !Z.eqb_eq; exact He).
    rewrite Hor.
    cbn beta iota delta [andb orb fst snd trace errno safe_level].
    rewrite <- app_assoc. cbn [app]. rewrite E2.
    cbn beta iota delta [andb orb fst snd trace errno safe_level].
    rewrite <- !app_assoc. cbn [app].
    split; intro Hn2; destruct (Z.ltb_spec n2 0); try lia; reflexivity.
Qed.

(** C1: [socketpair] whose first system call fails. With [errno] EMFILE
    or ENFILE, [rb_gc] runs once and the system call is made once more;
    when that fails too, SystemCallError "socketpair(2)" is raised with
    its [errno], and when it succeeds the pair is made from its
    descriptors. With any other [errno] the error is raised at once, after
    the one call. No other operation of the life cycle calls anything
    twice or calls [rb_gc]: each runs once through its calls. *)
Theorem socketpair_single_retry domain type protocol blk sp w d t p n1 e1 sp1 :
  HAVE_SOCKETPAIR P = true ->
  family_arg H domain = Ok d ->
  socktype_arg H type = Ok t ->
  num2int P protocol = Ok p ->
  os_socketpair O (trace w) d t p = (n1, e1, sp1) ->
  n1 < 0 ->
  (e1 = EMFILE P \/ e1 = ENFILE P ->
   forall n2 e2 sp2,
     os_socketpair O (trace w ++ [ev_socketpair d t p; ev_rb_gc]) d t p
       = (n2, e2, sp2) ->
     (n2 < 0 ->
      sock_s_socketpair P H O domain type protocol blk sp w
      = (Raise (SysFail "socketpair(2)" e2),
         after_calls w [ev_socketpair d t p; ev_rb_gc; ev_socketpair d t p] e2))
     /\ (0 <= n2 ->
         sock_s_socketpair P H O domain type protocol blk sp w
         = socketpair_result blk sp2
             (after_calls w [ev_socketpair d t p; ev_rb_gc; ev_socketpair d t p] e1)))
  /\ (e1 <> EMFILE P -> e1 <> ENFILE P ->
      sock_s_socketpair P H O domain type protocol blk sp w
      = (Raise (SysFail "socketpair(2)" e1), after_calls w [ev_socketpair d t p] e1))
  /\ (forall domain' type' protocol' sock addr log argv w',
        (exists d' t' p',
           straight_line [ev_ruby_socket d' t' p']
             (issued (sock_initialize P H O domain' type' protocol') w'))
        /\ straight_line [ev_ruby_connect sock addr]
             (issued (sock_connect P O sock addr) w')
        /\ straight_line [ev_rb_io_set_nonblock sock; ev_connect sock addr]
             (issued (sock_connect_nonblock P O sock addr) w')
        /\ straight_line [ev_bind sock addr] (issued (sock_bind P O sock addr) w')
        /\ (exists backlog,
              straight_line [ev_listen sock backlog]
                (issued (sock_listen P O sock log) w'))
        /\ straight_line [ev_s_accept true sock] (issued (sock_accept O sock) w')
        /\ straight_line [ev_s_accept_nonblock sock]
             (issued (sock_accept_nonblock O sock) w')
        /\ straight_line [ev_s_accept false sock] (issued (sock_sysaccept O sock) w')
        /\ straight_line [ev_s_recvfrom sock argv]
             (issued (sock_recvfrom O sock argv) w')
        /\ straight_line [ev_s_recvfrom_nonblock sock argv]
             (issued (sock_recvfrom_nonblock O sock argv) w')).
Proof.
  intros Hh Ed Et Ep E1 Hn1.
  destruct (socketpair_run domain type protocol blk sp w d t p n1 e1 sp1
              Hh Ed Et Ep E1) as (_ & Hother & Hretry).
  split; [| split].
  - intros He n2 e2 sp2 E2. exact (Hretry Hn1 He n2 e2 sp2 E2).
  - intros He1 He2. exact (Hother Hn1 He1 He2).
  - intros domain' type' protocol' sock addr log argv w'.
    destruct (sock_accept_straight sock w') as (Ha & Hb & Hc).
    destruct (sock_recvfrom_straight sock argv w') as (Hr1 & Hr2).
    repeat split;
      auto using sock_initialize_straight, sock_connect_straight,
        sock_connect_nonblock_straight, sock_bind_straight, sock_listen_straight.
Qed.

(** C5, as amended: [connect_nonblock] on an open socket first sets
    O_NONBLOCK on the descriptor and then makes the one [connect] system
    call. When the call fails, SystemCallError "connect(2)" is raised
    with the [errno] of the call, EINPROGRESS as any other; when it
    returns 0, the operation returns 0. *)
Theorem connect_nonblock_raises_errno sock addr w n e :
  0 <= sock ->
  hp_rb_io_set_nonblock O (trace w) sock = None ->
  os_connect O (trace w ++ [ev_rb_io_set_nonblock sock]) sock addr = (n, e) ->
  issued (sock_connect_nonblock P O sock addr) w
    = [ev_rb_io_set_nonblock sock; ev_connect sock addr]
  /\ (n < 0 ->
      fst (sock_connect_nonblock P O sock addr w) = Raise (SysFail "connect(2)" e))
  /\ (n = 0 -> fst (sock_connect_nonblock P O sock addr w) = Ok (RInteger 0)).
Proof.
  intros Hs Hnb Hc.
  unfold issued, sock_connect_nonblock, rb_io_set_nonblock, GetOpenFile, bind,
    lift, ret, call, syscall, rb_sys_fail, emit.
  destruct (Z.ltb_spec sock 0); [lia |].
  cbn beta iota delta [fst snd trace errno safe_level].
  rewrite Hnb. cbn beta iota delta [fst snd trace errno safe_level].
  rewrite Hc. cbn beta iota delta [fst snd trace errno safe_level].
  split; [| split].
  - destruct (n <? 0); cbn [snd trace];
      rewrite <- app_assoc; apply skipn_app_length.
  - intro Hn. destruct (Z.ltb_spec n 0); [reflexivity | lia].
  - intros ->. cbn [Z.ltb Z.compare fst]. unfold INT2FIX, wrap_signed.
    do 2 f_equal. rewrite Z.add_0_l.
    destruct (Z.le_gt_cases 1 (long_bits P - 1)) as [Hb | Hb].
    + assert (E2 : 2 ^ (long_bits P - 1) = 2 * 2 ^ (long_bits P - 1 - 1)).
      { rewrite <- Z.pow_succ_r by lia. f_equal. lia. }
      assert (0 < 2 ^ (long_bits P - 1 - 1)) by (apply Z.pow_pos_nonneg; lia).
      rewrite Z.mod_small; lia.
    + rewrite (Z.pow_neg_r 2 (long_bits P - 1 - 1)) by lia.
      rewrite Zmod_0_l. reflexivity.
Qed.

End LifecycleFacts.

(* ------------------------------------------------------------------ *)
(** ** The name-resolution bridge *)

Lemma bytes_eqb_eq (a b : bytes) : bytes_eqb a b = true <-> a = b.
Proof.
  revert b. induction a as [| x a IH]; intros [| y b]; simpl;
    try (split; (reflexivity || discriminate)).
  rewrite andb_true_iff, IH. split.
  - intros [E ->]. apply Byte.byte_dec_bl in E. now subst.
  - intros [= -> ->]. split; [apply Byte.byte_dec_lb |]; reflexivity.
Qed.

Lemma wrap_signed_small bits z :
  1 <= bits -> - 2 ^ (bits - 1) <= z < 2 ^ (bits - 1) -> wrap_signed bits z = z.
Proof.
  intros Hb Hz. unfold wrap_signed.
  assert (E : 2 ^ bits = 2 * 2 ^ (bits - 1)).
  { rewrite <- Z.pow_succ_r by lia. f_equal. lia. }
  rewrite Z.mod_small; lia.
Qed.

Lemma pow2_mono a b : 0 <= a <= b -> 2 ^ a <= 2 ^ b.
Proof. intro. apply Z.pow_le_mono_r; lia. Qed.

Lemma fits_signed_small bits z :
  32 <= bits -> - 2 ^ 31 <= z < 2 ^ 31 -> fits_signed bits z = true.
Proof.
  intros Hb Hz. unfold fits_signed.
  pose proof (pow2_mono 31 (bits - 1) ltac:(lia)).
  apply andb_true_iff. split; [apply Z.leb_le | apply Z.ltb_lt]; lia.
Qed.

Lemma INT2FIX_small P z :
  32 <= long_bits P -> - 2 ^ 30 <= z < 2 ^ 30 -> INT2FIX P z = RInteger z.
Proof.
  intros Hb Hz. unfold INT2FIX. f_equal. apply wrap_signed_small; [lia |].
  pose proof (pow2_mono 30 (long_bits P - 1 - 1) ltac:(lia)). lia.
Qed.


Lemma decimal_digit_of c :
  is_decimal_digit c = true -> digit_of c = Some (byte_to_Z c - 48).
Proof.
  unfold is_decimal_digit, digit_of. intro E. now rewrite E.
Qed.

Lemma scan_decimal s :
  forallb is_decimal_digit s = true ->
  forall acc,
    scan_digits 10 s acc
    = (fold_left (fun a c => a * 10 + (byte_to_Z c - 48)) s acc, length s).
Proof.
  induction s as [| c r IH]; intros Hd acc; [reflexivity |].
  cbn [forallb] in Hd. apply andb_true_iff in Hd as [Hc Hr].
  cbn [scan_digits fold_left length]. rewrite (decimal_digit_of c Hc).
  unfold is_decimal_digit in Hc. apply andb_true_iff in Hc as [H1 H2].
  apply Z.leb_le in H1, H2.
  destruct (Z.ltb_spec (byte_to_Z c - 48) 10); [| lia].
  now rewrite IH.
Qed.

Lemma decimal_value_nonneg s :
  forallb is_decimal_digit s = true ->
  forall acc, 0 <= acc ->
    0 <= fold_left (fun a c => a * 10 + (byte_to_Z c - 48)) s acc.
Proof.
  induction s as [| c r IH]; intros Hd acc Ha; [exact Ha |].
  cbn [forallb] in Hd. apply andb_true_iff in Hd as [Hc Hr].
  cbn [fold_left]. apply IH; [exact Hr |].
  unfold is_decimal_digit in Hc. apply andb_true_iff in Hc as [H1 H2].
  apply Z.leb_le in H1, H2. lia.
Qed.

Lemma byte_eqb_false (c d : byte) : byte_to_Z c <> byte_to_Z d -> Byte.eqb c d = false.
Proof.
  intro Hne. destruct (Byte.eqb c d) eqn:E; [| reflexivity].
  apply Byte.byte_dec_bl in E. now subst.
Qed.

Lemma strtoul_decimal bits s :
  decimal_literal s = true ->
  decimal_value s <= 2 ^ bits - 1 ->
  strtoul bits s 0 = (decimal_value s, length s).
Proof.
  unfold decimal_literal, decimal_value. destruct s as [| c r]; [discriminate |].
  intros Hd Hv. apply andb_true_iff in Hd as [Hz Hall].
  assert (Hc : is_decimal_digit c = true)
    by (cbn [forallb] in Hall; now apply andb_true_iff in Hall).
  unfold is_decimal_digit in Hc. apply andb_true_iff in Hc as [H1 H2].
  apply Z.leb_le in H1, H2. apply negb_true_iff in Hz.
  unfold strtoul.
  assert (Hsp : skip_space (c :: r) = O).
  { cbn [skip_space]. unfold ISSPACE.
    destruct (Z.eqb_spec (byte_to_Z c) 32); [lia |].
    destruct (Z.leb_spec (byte_to_Z c) 13); [lia |].
    now rewrite andb_false_r. }
  rewrite Hsp. cbn [skipn].
  assert (Hsg : sign_of (c :: r) = (false, O)).
  { cbn [sign_of]. rewrite !byte_eqb_false; [reflexivity | |];
      change (byte_to_Z "+"%byte) with 43; change (byte_to_Z "-"%byte) with 45; lia. }
  rewrite Hsg. cbn [skipn].
  assert (Hb : base_of 0 (c :: r) = (10, O)).
  { unfold base_of, hex_prefix. cbn [Z.eqb]. rewrite Hz.
    destruct r as [| x [| h t]]; reflexivity. }
  rewrite Hb. cbn [skipn]. rewrite (scan_decimal (c :: r) Hall 0).
  cbn [length].
  destruct (Z.ltb_spec (2 ^ bits - 1)
              (fold_left (fun a c0 => a * 10 + (byte_to_Z c0 - 48)) (c :: r) 0));
    [lia | reflexivity].
Qed.

Section ResolverFacts.
Variable P : platform.
Variable H : helpers.
Variable O : host.

Lemma same_names_eq a b : same_names a b = true <-> a = b.
Proof.
  destruct a, b. unfold same_names. simpl.
  rewrite andb_true_iff, !bytes_eqb_eq. split; [intros [-> ->] | intros [= -> ->]]; auto.
Qed.

Lemma check_candidates_run fl names hn pn rs :
  (forall tr r, In r rs ->
     os_rb_getnameinfo O tr (ai_addr r) (SA_LEN P (ai_addr r)) fl
     = (0, names (ai_addr r))) ->
  forall w,
    (forallb (fun r => same_names (hn, pn) (names_of names r)) rs = true ->
     check_candidates P O fl hn pn rs w
     = (Ok tt, after_calls w (nameinfo_events P fl rs) (errno w)))
    /\ (forallb (fun r => same_names (hn, pn) (names_of names r)) rs = false ->
        exists k,
          check_candidates P O fl hn pn rs w
          = (Raise ambiguous,
             after_calls w (nameinfo_events P fl (firstn k rs)) (errno w))).
Proof.
  induction rs as [| r rs IH]; intros Hos w.
  - split; [| discriminate]. intros _. simpl. unfold ret, after_calls.
    rewrite app_nil_r. now destruct w.
  - assert (Hr : os_rb_getnameinfo O (trace w) (ai_addr r) (SA_LEN P (ai_addr r)) fl
                 = (0, names (ai_addr r))) by (apply Hos; now left).
    assert (Hrs : forall tr r', In r' rs ->
              os_rb_getnameinfo O tr (ai_addr r') (SA_LEN P (ai_addr r')) fl
              = (0, names (ai_addr r'))) by (intros; apply Hos; now right).
    specialize (IH Hrs).
    assert (Hhd : same_names (hn, pn) (names_of names r)
                  = bytes_eqb hn (until_nul (fst (names (ai_addr r))))
                    && bytes_eqb pn (until_nul (snd (names (ai_addr r)))))
      by reflexivity.
    cbn [forallb]. rewrite Hhd. clear Hhd.
    cbn [check_candidates].
    unfold rb_getnameinfo, bind, query, ret.
    rewrite Hr. destruct (names (ai_addr r)) as [h p].
    cbn beta iota delta [fst snd]. rewrite Z.eqb_refl. cbn [negb].
    destruct (bytes_eqb hn (until_nul h)); [destruct (bytes_eqb pn (until_nul p)) |];
      cbn [andb negb orb].
    + destruct (IH (emit (ev_rb_getnameinfo (ai_addr r) (SA_LEN P (ai_addr r)) fl) w))
        as [IHok IHbad].
      split; intro E.
      * rewrite (IHok E). unfold after_calls, emit.
        cbn [trace errno safe_level nameinfo_events map].
        now rewrite <- app_assoc.
      * destruct (IHbad E) as [k Ek]. exists (S k). rewrite Ek.
        unfold after_calls, emit.
        cbn [trace errno safe_level nameinfo_events map firstn].
        now rewrite <- app_assoc.
    + split; [discriminate |]. intros _. exists 1%nat. reflexivity.
    + split; [discriminate |]. intros _. exists 1%nat. reflexivity.
Qed.

(** C6: [getnameinfo] on an array, when [getaddrinfo] gives the candidates
    [r0 :: rest] and the resolver answers for each of them. When every
    candidate gives the names of the first, [getnameinfo] has looked up
    every candidate, in order, and returns that pair of names; when some
    candidate gives other names, it raises SocketError "sockaddr resolved
    to multiple nodename", having looked the candidates up in order as far
    as the first that differs. *)
Theorem getnameinfo_candidates_agree
    (l : list rvalue) (flags : rvalue) (w : world)
    af port host ai_flags fl hptr pptr family r0 rest names :
  array_fields P l = Some (af, port, host, ai_flags) ->
  flags_arg P flags = Ok fl ->
  host_arg host = Ok hptr ->
  port_arg P port = Ok pptr ->
  af_arg P H af = Ok family ->
  os_rb_getaddrinfo O (trace w) hptr pptr (hints_for P fl ai_flags family)
    = (0, r0 :: rest) ->
  (forall tr r, In r (r0 :: rest) ->
     os_rb_getnameinfo O tr (ai_addr r) (SA_LEN P (ai_addr r)) fl
     = (0, names (ai_addr r))) ->
  ((forall r, In r rest -> names_of names r = names_of names r0) ->
   sock_s_getnameinfo P H O (RArray l) flags w
   = (Ok (rb_assoc_new (RString (fst (names_of names r0)))
                       (RString (snd (names_of names r0)))),
      after_calls w
        (ev_rb_getaddrinfo hptr pptr (hints_for P fl ai_flags family)
           :: nameinfo_events P fl (r0 :: rest))
        (errno w)))
  /\ ((exists r, In r rest /\ names_of names r <> names_of names r0) ->
      exists k,
        sock_s_getnameinfo P H O (RArray l) flags w
        = (Raise ambiguous,
           after_calls w
             (ev_rb_getaddrinfo hptr pptr (hints_for P fl ai_flags family)
                :: nameinfo_events P fl (r0 :: firstn k rest))
             (errno w))).
Proof.
  intros Ea Ef Eh Ep Efam Eai Hos.
  assert (Hrun : sock_s_getnameinfo P H O (RArray l) flags w
                 = call_nameinfo P O fl (ai_addr r0) (Some (r0 :: rest))
                     (emit (ev_rb_getaddrinfo hptr pptr
                              (hints_for P fl ai_flags family)) w)).
  { unfold sock_s_getnameinfo, lookup_array, bind, lift, query.
    rewrite Ef, Ea, Eh, Ep, Efam, Eai. reflexivity. }
  rewrite Hrun. clear Hrun.
  unfold call_nameinfo, rb_getnameinfo, bind, query, ret.
  rewrite (Hos _ r0 (or_introl eq_refl)).
  assert (Hn0 : names_of names r0
                = (until_nul (fst (names (ai_addr r0))),
                   until_nul (snd (names (ai_addr r0))))) by reflexivity.
  destruct (names (ai_addr r0)) as [h p].
  cbn beta iota delta [fst snd tl] in *. rewrite Z.eqb_refl. cbn [negb].
  rewrite Hn0. cbn [fst snd].
  set (w1 := emit _ (emit _ w)).
  destruct (check_candidates_run fl names (until_nul h) (until_nul p) rest
              (fun tr r Hin => Hos tr r (or_intror Hin)) w1) as [Hok Hbad].
  split.
  - intro Hall. rewrite Hok.
    + unfold after_calls, w1, emit. cbn [trace errno safe_level nameinfo_events map].
      rewrite <- !app_assoc. reflexivity.
    + apply forallb_forall. intros r Hin. apply same_names_eq.
      symmetry. now apply Hall.
  - intros (r & Hin & Hne).
    destruct Hbad as [k Eb].
    + destruct (forallb _ rest) eqn:Efa; [| reflexivity].
      exfalso. apply Hne. symmetry. apply same_names_eq.
      rewrite forallb_forall in Efa. now apply Efa.
    + exists k. rewrite Eb.
      unfold after_calls, w1, emit. cbn [trace errno safe_level nameinfo_events map].
      rewrite <- !app_assoc. reflexivity.
Qed.


Lemma to_int_small z : - 2 ^ 31 <= z < 2 ^ 31 -> to_int z = z.
Proof. intro. unfold to_int. apply wrap_signed_small; lia. Qed.

Lemma getservbyname_no_entry (name : bytes) (proto : option bytes) (w : world) :
  has_nul name = false ->
  has_nul (protoname_of proto) = false ->
  os_getservbyname O (trace w) name (protoname_of proto) = None ->
  sock_s_getservbyname P O (RString name) (optional_arg proto) w
  = (if (snd (STRTOUL P name 0) <? length name)%nat
     then Raise (Exc rb_eSocket "no such service %s/%s"
                     [FStr name; FStr (protoname_of proto)])
     else Ok (INT2FIX P (to_int (fst (STRTOUL P name 0)))),
     after_calls w [ev_getservbyname name (protoname_of proto)] (errno w)).
Proof.
  intros Hn Hp Hos.
  unfold sock_s_getservbyname, bind, lift, ret, query, StringValue, StringValueCStr.
  cbn beta iota. rewrite Hn.
  destruct proto as [p |]; cbn [optional_arg protoname_of NIL_P] in *;
    cbn beta iota; rewrite ?Hp; cbn beta iota; rewrite Hos;
    destruct (STRTOUL P name 0) as [v e]; cbn [fst snd];
    destruct (e <? length name)%nat; reflexivity.
Qed.

(** C7, as amended: the protocol is "tcp" when none is given. For a
    service name with no entry in the database, [getservbyname] returns
    what [strtoul] with base 0 reads from the name - a number in the
    syntax of a C constant - and raises SocketError "no such service"
    exactly when [strtoul] stops before the end of the name; a name in
    decimal digits with no zero in front, below 2^30, gives its decimal
    value. [getservbyport] has no such fallback: for a port of 16 bits
    with no entry it raises SocketError "no such service for port". *)
Theorem getservbyname_fallback (proto : option bytes) (w : world) :
  platform_wf P ->
  has_nul (protoname_of proto) = false ->
  (forall name,
     has_nul name = false ->
     os_getservbyname O (trace w) name (protoname_of proto) = None ->
     sock_s_getservbyname P O (RString name) (optional_arg proto) w
     = (if (snd (STRTOUL P name 0) <? length name)%nat
        then Raise (Exc rb_eSocket "no such service %s/%s"
                        [FStr name; FStr (protoname_of proto)])
        else Ok (INT2FIX P (to_int (fst (STRTOUL P name 0)))),
        after_calls w [ev_getservbyname name (protoname_of proto)] (errno w))
     /\ (decimal_literal name = true -> decimal_value name < 2 ^ 30 ->
         sock_s_getservbyname P O (RString name) (optional_arg proto) w
         = (Ok (RInteger (decimal_value name)),
            after_calls w [ev_getservbyname name (protoname_of proto)] (errno w))))
  /\ (forall port,
        0 <= port <= 65535 ->
        os_getservbyport O (trace w) (Codec.htons P port) (protoname_of proto) = None ->
        sock_s_getservbyport P O (RInteger port) (optional_arg proto) w
        = (Raise (Exc rb_eSocket "no such service for port %d/%s"
                      [FInt port; FStr (protoname_of proto)]),
           after_calls w [ev_getservbyport (Codec.htons P port) (protoname_of proto)]
             (errno w))).
Proof.
  intros Hwf Hp. pose proof (wf_long Hwf) as Hlong. split.
  - intros name Hn Hos. split; [now apply getservbyname_no_entry |].
    intros Hd Hv. rewrite getservbyname_no_entry by assumption.
    assert (Hnn : 0 <= decimal_value name).
    { unfold decimal_value. apply decimal_value_nonneg; [| lia].
      unfold decimal_literal in Hd. destruct name; [discriminate |].
      now apply andb_true_iff in Hd. }
    unfold STRTOUL. rewrite strtoul_decimal.
    + cbn [fst snd]. rewrite Nat.ltb_irrefl.
      rewrite to_int_small, INT2FIX_small by lia. reflexivity.
    + exact Hd.
    + pose proof (pow2_mono 30 (long_bits P) ltac:(lia)). lia.
  - intros port Hr Hos.
    unfold sock_s_getservbyport, bind, lift, ret, query, num2long.
    rewrite fits_signed_small by lia. cbn beta iota.
    rewrite (Z.mod_small port) by lia. rewrite Z.eqb_refl. cbn [negb].
    destruct proto as [p |]; cbn [optional_arg protoname_of NIL_P] in *;
      unfold StringValue, StringValueCStr; cbn beta iota; rewrite ?Hp;
      cbn beta iota; rewrite Hos; rewrite to_int_small by lia; reflexivity.
Qed.

(** C9: for an Integer port outside [0, 65535], [getservbyport] raises a
    RangeError and the world is as before: no lookup was made. For a port
    inside, the one call made is [getservbyport] with [htons(port)], the
    integer whose bytes in memory are the port in network byte order. *)
Theorem getservbyport_range (port : Z) (proto : option bytes) (w : world) :
  platform_wf P ->
  has_nul (protoname_of proto) = false ->
  (~ 0 <= port <= 65535 ->
   exists fmt args,
     sock_s_getservbyport P O (RInteger port) (optional_arg proto) w
     = (Raise (Exc rb_eRangeError fmt args), w))
  /\ (0 <= port <= 65535 ->
      issued (sock_s_getservbyport P O (RInteger port) (optional_arg proto)) w
      = [ev_getservbyport (Codec.htons P port) (protoname_of proto)]
      /\ int_bytes (byte_order P) 2 (Codec.htons P port) = int_bytes BigEndian 2 port).
Proof.
  intros Hwf Hp. pose proof (wf_long Hwf) as Hlong. split.
  - intro Hout.
    unfold sock_s_getservbyport, bind, lift, num2long, rb_raise.
    destruct (fits_signed (long_bits P) port); cbn beta iota.
    + destruct (Z.eqb_spec port (port mod 65536)) as [E | E]; cbn [negb].
      * exfalso. apply Hout. rewrite E.
        pose proof (Z.mod_pos_bound port 65536 ltac:(lia)). lia.
      * eexists. eexists. reflexivity.
    + eexists. eexists. reflexivity.
  - intro Hr. split.
    + unfold issued, sock_s_getservbyport, bind, lift, ret, query, num2long.
      rewrite fits_signed_small by lia. cbn beta iota.
      rewrite (Z.mod_small port) by lia. rewrite Z.eqb_refl. cbn [negb].
      destruct proto as [p |]; cbn [optional_arg protoname_of NIL_P] in *;
        unfold StringValue, StringValueCStr; cbn beta iota; rewrite ?Hp;
        cbn beta iota;
        destruct (os_getservbyport O (trace w) _ _);
        cbn [snd lift emit trace]; apply skipn_app_length.
    + unfold Codec.htons.
      change 2%nat with (length (int_bytes BigEndian 2 port)) at 1.
      apply int_bytes_value.
Qed.

(** C10: [gethostbyaddr] with no family argument looks the address up as
    AF_INET6 when the build has IPv6 and the address is 16 bytes long, and
    as AF_INET otherwise; with a family argument it looks it up in the
    family that argument names, whatever the length. *)
Theorem gethostbyaddr_family (a : bytes) (w : world) :
  issued (sock_s_gethostbyaddr P H O (RString a) Qnil) w
  = [ev_gethostbyaddr a (length a)
       (if INET6 P && Nat.eqb (length a) 16 then AF_INET6 P else AF_INET P)]
  /\ (forall family t,
        family <> Qnil -> family_arg H family = Ok t ->
        issued (sock_s_gethostbyaddr P H O (RString a) family) w
        = [ev_gethostbyaddr a (length a) t]).
Proof.
  split.
  - unfold issued, sock_s_gethostbyaddr, bind, lift, ret, query, StringValue.
    cbn beta iota delta [NIL_P negb].
    destruct (INET6 P && Nat.eqb (length a) 16); cbn beta iota;
      destruct (os_gethostbyaddr O (trace w) a (length a) _);
      try destruct (HAVE_HSTRERROR P);
      cbn [snd lift emit trace]; apply skipn_app_length.
  - intros family t Hf Ef.
    unfold issued, sock_s_gethostbyaddr, bind, lift, ret, query, StringValue.
    assert (Hnil : NIL_P family = false) by (destruct family; first [reflexivity | congruence]).
    rewrite Hnil, Ef. cbn beta iota delta [negb].
    destruct (os_gethostbyaddr O (trace w) a (length a) t);
      try destruct (HAVE_HSTRERROR P);
      cbn [snd lift emit trace]; apply skipn_app_length.
Qed.

End ResolverFacts.

(* ------------------------------------------------------------------ *)
(** ** Runs on Linux *)

Import Sample.

Lemma linux_wf : platform_wf linux.
Proof.
  constructor; simpl; lia.
Defined.

Lemma socketpair_single_retry_witness :
  sock_s_socketpair linux (helpers0 linux) host_exhausted
    (RInteger 1) (RInteger 1) (RInteger 0) None (0, 0) world0
  = (Raise (SysFail "socketpair(2)" 24),
     after_calls world0 [ev_socketpair 1 1 0; ev_rb_gc; ev_socketpair 1 1 0] 24).
Proof.
  destruct (socketpair_single_retry linux (helpers0 linux) host_exhausted
              (RInteger 1) (RInteger 1) (RInteger 0) None (0, 0) world0
              1 1 0 (-1) 24 (0, 0)
              eq_refl eq_refl eq_refl eq_refl eq_refl ltac:(lia))
    as [Hretry _].
  destruct (Hretry (or_introl eq_refl) (-1) 24 (0, 0) eq_refl) as [Hfail _].
  apply Hfail. lia.
Defined.

Lemma unpack_sockaddr_un_nul_rule_witness :
  sock_s_unpack_sockaddr_un linux (helpers0 linux) sockaddr_un_full
  = Raise not_nul_terminated.
Proof.
  destruct (unpack_sockaddr_un_nul_rule linux (helpers0 linux) sockaddr_un_full
              linux_wf ltac:(vm_compute; lia) eq_refl) as [[_ Hraise] _].
  apply Hraise. repeat split; reflexivity.
Defined.

(** C2, as stated, fails: the string is tagged AF_UNIX, it has not the
    size of [struct sockaddr_un], its path "a" ends in a NUL well inside
    it, and decoding raises: the string is one byte longer than the
    structure. *)
Lemma unpack_sockaddr_un_longer_refused :
  (family_tag_end linux <= length sockaddr_un_long)%nat
  /\ sa_family linux sockaddr_un_long = AF_UNIX linux
  /\ length sockaddr_un_long <> sizeof_sockaddr_un linux
  /\ has_nul (skipn (sun_path_offset linux) sockaddr_un_long) = true
  /\ until_nul (skipn (sun_path_offset linux) sockaddr_un_long) = lit "a"
  /\ sock_s_unpack_sockaddr_un linux (helpers0 linux) sockaddr_un_long
     = Raise (Exc rb_eTypeError "too long sockaddr_un - %ld longer than %d"
                  [FInt 111; FInt 110])
  /\ raised (sock_s_unpack_sockaddr_un linux (helpers0 linux) sockaddr_un_long)
     = true.
Proof.
  repeat split; try reflexivity; [vm_compute; lia | vm_compute; lia].
Qed.

Lemma pack_unpack_sockaddr_un_witness :
  rbind (sock_s_pack_sockaddr_un linux (longest_path linux))
        (sock_s_unpack_sockaddr_un linux (helpers0 linux))
  = Ok (longest_path linux).
Proof.
  destruct (pack_unpack_sockaddr_un linux (helpers0 linux) (longest_path linux)
              linux_wf eq_refl) as [_ Hround].
  destruct Hround as (addr & Epack & _ & Eunpack); [vm_compute; lia |].
  rewrite Epack. simpl rbind. apply Eunpack.
  vm_compute in Epack. injection Epack as <-. reflexivity.
Defined.

Lemma darwin_wf : platform_wf darwin.
Proof.
  constructor; simpl; lia.
Qed.

(** The same round trip where the tag is one byte behind [sa_len]. *)
Example pack_unpack_on_darwin :
  rbind (sock_s_pack_sockaddr_un darwin (longest_path darwin))
        (sock_s_unpack_sockaddr_un darwin (helpers0 darwin))
  = Ok (longest_path darwin)
  /\ raised (sock_s_pack_sockaddr_un darwin (longest_path darwin ++ [x42])) = true.
Proof.
  split; reflexivity.
Qed.

Lemma unknown_family_raises_witness :
  sock_s_unpack_sockaddr_in linux (helpers0 linux) sockaddr_ll
    = Raise (Exc rb_eArgError "not an AF_INET/AF_INET6 sockaddr" [])
  /\ sock_s_unpack_sockaddr_un linux (helpers0 linux) sockaddr_ll
    = Raise (Exc rb_eArgError "not an AF_UNIX sockaddr" [])
  /\ sock_sockaddr linux sockaddr_ll
    = Raise (Exc rb_eSocket "unknown socket family:%d" [FInt 17]).
Proof.
  apply (unknown_family_raises linux (helpers0 linux) sockaddr_ll);
    [vm_compute; lia | reflexivity | discriminate].
Defined.

(** C4, as stated, fails: the string is long enough for the tag, the tag
    (17) is no family the codec knows, and decoding raises. *)
Lemma unknown_family_not_opaque :
  (family_tag_end linux <= length sockaddr_ll)%nat
  /\ is_inet_family linux (sa_family linux sockaddr_ll) = false
  /\ sa_family linux sockaddr_ll <> AF_UNIX linux
  /\ sock_s_unpack_sockaddr_in linux (helpers0 linux) sockaddr_ll
     = Raise (Exc rb_eArgError "not an AF_INET/AF_INET6 sockaddr" [])
  /\ sock_s_unpack_sockaddr_un linux (helpers0 linux) sockaddr_ll
     = Raise (Exc rb_eArgError "not an AF_UNIX sockaddr" [])
  /\ raised (sock_sockaddr linux sockaddr_ll) = true.
Proof.
  repeat split; try reflexivity; [vm_compute; lia | discriminate].
Qed.

Lemma connect_nonblock_raises_errno_witness :
  issued (sock_connect_nonblock linux host_in_progress 5 sockaddr_in_1) world0
    = [ev_rb_io_set_nonblock 5; ev_connect 5 sockaddr_in_1]
  /\ fst (sock_connect_nonblock linux host_in_progress 5 sockaddr_in_1 world0)
     = Raise (SysFail "connect(2)" 115).
Proof.
  destruct (connect_nonblock_raises_errno linux host_in_progress 5 sockaddr_in_1
              world0 (-1) 115 ltac:(lia) eq_refl eq_refl) as (Hcalls & Hfail & _).
  split; [exact Hcalls | apply Hfail; lia].
Defined.

(** C5, as stated, fails: [connect] fails with EINPROGRESS, and the
    operation ends in a raise, not in a value. *)
Lemma connect_nonblock_einprogress_raised :
  os_connect host_in_progress [ev_rb_io_set_nonblock 5] 5 sockaddr_in_1
    = (-1, EINPROGRESS linux)
  /\ fst (sock_connect_nonblock linux host_in_progress 5 sockaddr_in_1 world0)
     = Raise (SysFail "connect(2)" (EINPROGRESS linux))
  /\ raised (fst (sock_connect_nonblock linux host_in_progress 5 sockaddr_in_1 world0))
     = true.
Proof.
  repeat split; reflexivity.
Qed.

Lemma getnameinfo_candidates_agree_witness :
  fst (sock_s_getnameinfo linux (helpers0 linux) host_two_addresses
         (RArray [RInteger 2; RInteger 80; RString (lit "localhost")]) Qnil world0)
  = Ok (rb_assoc_new (RString (lit "localhost")) (RString (lit "www"))).
Proof.
  destruct (getnameinfo_candidates_agree linux (helpers0 linux) host_two_addresses
              [RInteger 2; RInteger 80; RString (lit "localhost")] Qnil world0
              (RInteger 2) (RInteger 80) (RString (lit "localhost")) 0 0
              (Some (lit "localhost")) (Some (lit "80")) 2
              (candidate sockaddr_in_1) [candidate sockaddr_in_2]
              (fun sa => snd (nameinfo_of names_table sa))
              eq_refl eq_refl eq_refl eq_refl eq_refl eq_refl) as [Hagree _].
  - intros tr r [<- | [<- | []]]; reflexivity.
  - rewrite Hagree; [reflexivity |].
    intros r [<- | []]. reflexivity.
Defined.

Lemma getservbyname_fallback_witness :
  fst (sock_s_getservbyname linux host_exhausted (RString (lit "8080")) Qnil world0)
    = Ok (RInteger 8080)
  /\ fst (sock_s_getservbyport linux host_exhausted (RInteger 81) Qnil world0)
    = Raise (Exc rb_eSocket "no such service for port %d/%s"
                 [FInt 81; FStr (lit "tcp")]).
Proof.
  destruct (getservbyname_fallback linux host_exhausted None world0
              linux_wf eq_refl) as [Hname Hport].
  destruct (Hname (lit "8080") eq_refl eq_refl) as [_ Hdec].
  pose proof (Hdec eq_refl ltac:(vm_compute; reflexivity)) as E1.
  pose proof (Hport 81 ltac:(lia) eq_refl) as E2.
  split; [exact (f_equal fst E1) | exact (f_equal fst E2)].
Defined.

(** C7, as stated, fails: "010" has no entry, its decimal reading is ten,
    and [getservbyname] returns eight. *)
Lemma getservbyname_octal_literal :
  os_getservbyname host_exhausted [] (lit "010") (lit "tcp") = None
  /\ decimal_value (lit "010") = 10
  /\ fst (sock_s_getservbyname linux host_exhausted (RString (lit "010")) Qnil world0)
     = Ok (RInteger 8).
Proof.
  repeat split; reflexivity.
Qed.

Lemma unpack_too_short_witness :
  sock_s_unpack_sockaddr_in linux (helpers0 linux) [x02]
    = Raise (Exc rb_eArgError "too short sockaddr" [])
  /\ sock_s_unpack_sockaddr_un linux (helpers0 linux) [x02]
    = Raise (Exc rb_eArgError "too short sockaddr" []).
Proof.
  apply (unpack_too_short linux (helpers0 linux) [x02]). vm_compute. lia.
Defined.

Lemma getservbyport_range_witness :
  (exists fmt args,
     sock_s_getservbyport linux host_exhausted (RInteger 65536) Qnil world0
     = (Raise (Exc rb_eRangeError fmt args), world0))
  /\ issued (sock_s_getservbyport linux host_exhausted (RInteger 80) Qnil) world0
     = [ev_getservbyport 20480 (lit "tcp")].
Proof.
  split.
  - destruct (getservbyport_range linux host_exhausted 65536 None world0
                linux_wf eq_refl) as [Hout _].
    apply Hout. lia.
  - destruct (getservbyport_range linux host_exhausted 80 None world0
                linux_wf eq_refl) as [_ Hin].
    destruct Hin as [Hcall _]; [lia | exact Hcall].
Defined.

Lemma gethostbyaddr_family_witness :
  issued (sock_s_gethostbyaddr linux (helpers0 linux) host_exhausted
            (RString (repeat x00 16)) Qnil) world0
    = [ev_gethostbyaddr (repeat x00 16) 16 10]
  /\ issued (sock_s_gethostbyaddr linux (helpers0 linux) host_exhausted
               (RString (repeat x00 16)) (RInteger 2)) world0
    = [ev_gethostbyaddr (repeat x00 16) 16 2].
Proof.
  destruct (gethostbyaddr_family linux (helpers0 linux) host_exhausted
              (repeat x00 16) world0) as [Hnone Hgiven].
  split; [exact Hnone | apply Hgiven; [discriminate | reflexivity]].
Defined.

(* ================================================================== *)
(** * Further properties *)

Import AddrInfo Hostname.

(* ------------------------------------------------------------------ *)
(** ** The socket life cycle *)

Section LifecycleMore.

Variable P : platform.
Variable H : helpers.
Variable O : host.

Lemma after_calls_emit w e1 e2 en :
  after_calls (emit e1 w) [e2] en = after_calls w [e1; e2] en.
Proof.
  unfold after_calls, emit. cbn [trace errno safe_level].
  now rewrite <- app_assoc.
Qed.

Lemma num2int_integer n :
  32 <= long_bits P -> - 2 ^ 31 <= n < 2 ^ 31 -> num2int P (RInteger n) = Ok n.
Proof.
  intros Hb Hn. unfold num2int, num2long.
  rewrite fits_signed_small by assumption. cbn [rbind].
  now rewrite fits_signed_small by lia.
Qed.

Lemma num2int_out_of_range n :
  ~ - 2 ^ 31 <= n < 2 ^ 31 ->
  exists fmt args, num2int P (RInteger n) = Raise (Exc rb_eRangeError fmt args).
Proof.
  intro Hn. unfold num2int, num2long, rb_raise.
  destruct (fits_signed (long_bits P) n); cbn [rbind].
  - unfold fits_signed.
    destruct (Z.leb_spec (- 2 ^ (32 - 1)) n); destruct (Z.ltb_spec n (2 ^ (32 - 1)));
      cbn [andb]; try (eexists; eexists; reflexivity).
    exfalso. apply Hn. change (32 - 1) with 31 in *. lia.
  - eexists. eexists. reflexivity.
Qed.

(** X1: [socketpair] with a block, when the first system call succeeds:
    the block is called with the pair, and however it ends - with a value
    or with a raise - the second socket is closed, then the first, and
    the end of the block is the end of the call. *)
Theorem socketpair_block_closes_both domain type protocol b sp w d t p n e fd1 fd2 r w2 :
  HAVE_SOCKETPAIR P = true ->
  family_arg H domain = Ok d ->
  socktype_arg H type = Ok t ->
  num2int P protocol = Ok p ->
  os_socketpair O (trace w) d t p = (n, e, (fd1, fd2)) ->
  0 <= n ->
  b (RArray [RSocket fd1; RSocket fd2])
    (after_calls w [ev_socketpair d t p;
                    ev_rb_yield (RArray [RSocket fd1; RSocket fd2])] (errno w))
    = (r, w2) ->
  r <> Undefined ->
  sock_s_socketpair P H O domain type protocol (Some b) sp w
  = (r, after_calls w2 [ev_close (RSocket fd2); ev_close (RSocket fd1)] (errno w2)).
Proof.
  intros Hh Ed Et Ep Es Hn Eb Hr.
  destruct (socketpair_run P H O domain type protocol (Some b) sp w d t p n e
              (fd1, fd2) Hh Ed Et Ep Es) as [Hok _].
  rewrite (Hok Hn).
  unfold socketpair_result, pair_yield, rb_ensure, rb_yield, io_close, query,
    init_sock, rb_assoc_new, rb_ary_entry.
  cbn [fst snd nth].
  assert (Ew : emit (ev_rb_yield (RArray [RSocket fd1; RSocket fd2]))
                 (after_calls w [ev_socketpair d t p] (errno w))
               = after_calls w [ev_socketpair d t p;
                                ev_rb_yield (RArray [RSocket fd1; RSocket fd2])]
                   (errno w)).
  { unfold after_calls, emit. cbn [trace errno safe_level].
    now rewrite <- app_assoc. }
  rewrite Ew, Eb.
  destruct r as [v | ex |]; [| | congruence];
    unfold after_calls, emit; cbn [trace errno safe_level];
    now rewrite <- app_assoc.
Qed.

(** X2: [socketpair] makes no system call for arguments that do not
    convert: the raise of [family_arg], of [socktype_arg], or the
    RangeError of a protocol that is no [int], is what the call ends in,
    and the world is as before. *)
Theorem socketpair_rejects_arguments domain type protocol blk sp w :
  HAVE_SOCKETPAIR P = true ->
  (forall ex,
     family_arg H domain = Raise ex ->
     sock_s_socketpair P H O domain type protocol blk sp w = (Raise ex, w))
  /\ (forall d ex,
        family_arg H domain = Ok d -> socktype_arg H type = Raise ex ->
        sock_s_socketpair P H O domain type protocol blk sp w = (Raise ex, w))
  /\ (forall d t n,
        family_arg H domain = Ok d -> socktype_arg H type = Ok t ->
        protocol = RInteger n -> ~ - 2 ^ 31 <= n < 2 ^ 31 ->
        exists fmt args,
          sock_s_socketpair P H O domain type protocol blk sp w
          = (Raise (Exc rb_eRangeError fmt args), w)).
Proof.
  intro Hh.
  unfold sock_s_socketpair, setup_domain_and_type, bind, lift, ret.
  rewrite Hh. repeat split.
  - intros ex E. now rewrite E.
  - intros d ex Ed Et. now rewrite Ed, Et.
  - intros d t n Ed Et -> Hn. rewrite Ed, Et. cbn beta iota.
    destruct (num2int_out_of_range n Hn) as (fmt & args & E).
    rewrite E. eexists. eexists. reflexivity.
Qed.

(** X3: [Socket.new], its arguments converted. At [$SAFE] 3 or more it
    raises with no call made; below, it makes the one call of
    [ruby_socket]: a negative descriptor raises SystemCallError
    "socket(2)" with the [errno] of that call, any other descriptor is
    wrapped into the socket. *)
Theorem sock_initialize_outcomes domain type protocol w d t p fd e :
  family_arg H domain = Ok d ->
  socktype_arg H type = Ok t ->
  num2int P protocol = Ok p ->
  hp_ruby_socket O (trace w) d t p = (fd, e) ->
  (3 <= safe_level w ->
   exists ex, sock_initialize P H O domain type protocol w = (Raise ex, w))
  /\ (safe_level w < 3 -> fd < 0 ->
      sock_initialize P H O domain type protocol w
      = (Raise (SysFail "socket(2)" e), after_calls w [ev_ruby_socket d t p] e))
  /\ (safe_level w < 3 -> 0 <= fd ->
      sock_initialize P H O domain type protocol w
      = (Ok (RSocket fd), after_calls w [ev_ruby_socket d t p] (errno w))).
Proof.
  intros Ed Et Ep Es.
  unfold sock_initialize, setup_domain_and_type, rb_secure, bind, lift, ret,
    syscall, rb_sys_fail, init_sock, after_calls.
  split; [| split].
  - intro Hs. destruct (Z.leb_spec 3 (safe_level w)); [| lia].
    eexists. reflexivity.
  - intros Hs Hfd. destruct (Z.leb_spec 3 (safe_level w)); [lia |].
    rewrite Ed, Et, Ep. cbn beta iota. rewrite Es.
    destruct (Z.ltb_spec fd 0); [reflexivity | lia].
  - intros Hs Hfd. destruct (Z.leb_spec 3 (safe_level w)); [lia |].
    rewrite Ed, Et, Ep. cbn beta iota. rewrite Es.
    destruct (Z.ltb_spec fd 0); [lia | reflexivity].
Qed.

(** X4: on a closed socket, [connect], [connect_nonblock], [bind],
    [listen] and the three [accept] raise IOError "closed stream" and
    leave the world as it is: no call reaches the system. *)
Theorem closed_socket_makes_no_call sock addr w :
  sock < 0 ->
  sock_connect P O sock addr w = (Raise closed_stream, w)
  /\ sock_connect_nonblock P O sock addr w = (Raise closed_stream, w)
  /\ sock_bind P O sock addr w = (Raise closed_stream, w)
  /\ sock_accept O sock w = (Raise closed_stream, w)
  /\ sock_accept_nonblock O sock w = (Raise closed_stream, w)
  /\ sock_sysaccept O sock w = (Raise closed_stream, w)
  /\ (forall backlog,
        safe_level w < 4 -> - 2 ^ 31 <= backlog < 2 ^ 31 -> 32 <= long_bits P ->
        sock_listen P O sock (RInteger backlog) w = (Raise closed_stream, w)).
Proof.
  intro Hs.
  unfold sock_connect, sock_connect_nonblock, sock_bind, sock_accept,
    sock_accept_nonblock, sock_sysaccept, sock_listen, GetOpenFile, bind, lift,
    rb_secure, rb_raise, closed_stream.
  destruct (Z.ltb_spec sock 0); [| lia].
  repeat split.
  intros backlog Hsafe Hb Hl. destruct (Z.leb_spec 4 (safe_level w)); [lia |].
  now rewrite num2int_integer.
Qed.

(** X5: [listen] on an open socket passes the backlog on as it is given,
    for every backlog that is an [int]; for any other Integer it raises a
    RangeError and calls nothing. *)
Theorem listen_passes_backlog sock backlog w :
  32 <= long_bits P ->
  0 <= sock ->
  safe_level w < 4 ->
  (- 2 ^ 31 <= backlog < 2 ^ 31 ->
   issued (sock_listen P O sock (RInteger backlog)) w = [ev_listen sock backlog])
  /\ (~ - 2 ^ 31 <= backlog < 2 ^ 31 ->
      exists fmt args,
        sock_listen P O sock (RInteger backlog) w
        = (Raise (Exc rb_eRangeError fmt args), w)).
Proof.
  intros Hl Hs Hsafe.
  unfold issued, sock_listen, GetOpenFile, rb_secure, bind, lift, ret, syscall,
    rb_sys_fail.
  destruct (Z.leb_spec 4 (safe_level w)); [lia |].
  destruct (Z.ltb_spec sock 0); [lia |].
  split.
  - intro Hb. rewrite num2int_integer by assumption. cbn beta iota.
    destruct (os_listen O (trace w) sock backlog) as [n e].
    destruct (n <? 0); cbn [snd trace]; apply skipn_app_length.
  - intro Hb. destruct (num2int_out_of_range backlog Hb) as (fmt & args & E).
    rewrite E. eexists. eexists. reflexivity.
Qed.

(** X6: when the descriptor cannot be marked non-blocking,
    [connect_nonblock] ends in the raise of [rb_io_set_nonblock], and
    [connect] is not called. *)
Theorem connect_nonblock_stops_when_unmarked sock addr w ex :
  0 <= sock ->
  hp_rb_io_set_nonblock O (trace w) sock = Some ex ->
  sock_connect_nonblock P O sock addr w
  = (Raise ex, after_calls w [ev_rb_io_set_nonblock sock] (errno w)).
Proof.
  intros Hs Hnb.
  unfold sock_connect_nonblock, rb_io_set_nonblock, GetOpenFile, bind, lift, call.
  destruct (Z.ltb_spec sock 0); [lia |].
  cbn beta iota. now rewrite Hnb.
Qed.

(** X7: [bind] and [connect] on an open socket make their one call; a
    negative return raises SystemCallError "bind(2)" or "connect(2)" with
    the [errno] that call left; otherwise [bind] returns 0 whatever the
    system returned, and [connect] returns what [ruby_connect] did. *)
Theorem bind_and_connect_outcomes sock addr w :
  0 <= sock ->
  (forall n e,
     os_bind O (trace w) sock addr = (n, e) ->
     sock_bind P O sock addr w
     = if n <? 0
       then (Raise (SysFail "bind(2)" e), after_calls w [ev_bind sock addr] e)
       else (Ok (RInteger 0), after_calls w [ev_bind sock addr] (errno w)))
  /\ (forall n e,
        hp_ruby_connect O (trace w) sock addr = (n, e) ->
        sock_connect P O sock addr w
        = if n <? 0
          then (Raise (SysFail "connect(2)" e),
                after_calls w [ev_ruby_connect sock addr] e)
          else (Ok (INT2FIX P n), after_calls w [ev_ruby_connect sock addr] (errno w))).
Proof.
  intro Hs.
  unfold sock_bind, sock_connect, GetOpenFile, bind, lift, ret, syscall,
    rb_sys_fail, after_calls.
  destruct (Z.ltb_spec sock 0); [lia |].
  split; intros n e E; cbn beta iota; rewrite E; destruct (n <? 0) eqn:En;
    cbn beta iota; rewrite ?En; try reflexivity.
  unfold INT2FIX, wrap_signed. do 3 f_equal.
  rewrite Z.add_0_l.
  destruct (Z.le_gt_cases 1 (long_bits P - 1)) as [Hb | Hb].
  - assert (E2 : 2 ^ (long_bits P - 1) = 2 * 2 ^ (long_bits P - 1 - 1)).
    { rewrite <- Z.pow_succ_r by lia. f_equal. lia. }
    assert (0 < 2 ^ (long_bits P - 1 - 1)) by (apply Z.pow_pos_nonneg; lia).
    rewrite Z.mod_small; lia.
  - rewrite (Z.pow_neg_r 2 (long_bits P - 1 - 1)) by lia.
    rewrite Zmod_0_l. reflexivity.
Qed.

(** X8: the three [accept] on an open socket: what the helper raises
    (EWOULDBLOCK, say) is raised as it is, and what it accepts is
    returned with an Addrinfo made of the accepted socket and the bytes
    of the peer. *)
Theorem accept_outcomes sock w :
  0 <= sock ->
  (forall ex,
     hp_s_accept_nonblock O (trace w) sock = Raise ex ->
     sock_accept_nonblock O sock w
     = (Raise ex, after_calls w [ev_s_accept_nonblock sock] (errno w)))
  /\ (forall sock2 peer,
        hp_s_accept_nonblock O (trace w) sock = Ok (sock2, peer) ->
        sock_accept_nonblock O sock w
        = (Ok (RArray [sock2; RAddrinfo sock2 peer]),
           after_calls w [ev_s_accept_nonblock sock] (errno w)))
  /\ (forall klass ex,
        hp_s_accept O (trace w) klass sock = Raise ex ->
        (if klass then sock_accept O sock w else sock_sysaccept O sock w)
        = (Raise ex, after_calls w [ev_s_accept klass sock] (errno w)))
  /\ (forall klass sock2 peer,
        hp_s_accept O (trace w) klass sock = Ok (sock2, peer) ->
        (if klass then sock_accept O sock w else sock_sysaccept O sock w)
        = (Ok (RArray [sock2; RAddrinfo sock2 peer]),
           after_calls w [ev_s_accept klass sock] (errno w))).
Proof.
  intro Hs.
  unfold sock_accept, sock_accept_nonblock, sock_sysaccept, GetOpenFile, bind,
    lift, ret, call.
  destruct (Z.ltb_spec sock 0); [lia |].
  repeat split.
  - intros ex E. cbn beta iota. now rewrite E.
  - intros sock2 peer E. cbn beta iota. now rewrite E.
  - intros [|] ex E; cbn beta iota; now rewrite E.
  - intros [|] sock2 peer E; cbn beta iota; now rewrite E.
Qed.

End LifecycleMore.

(* ------------------------------------------------------------------ *)
(** ** The address codec *)

Section CodecMore.

Variable P : platform.
Variable H : helpers.

Lemma length_load off n (buf : bytes) :
  (off + n <= length buf)%nat -> length (load off n buf) = n.
Proof.
  intro Hle. unfold load. rewrite length_firstn, length_skipn. lia.
Qed.

Lemma int_bytes_value_of_length e (bs : bytes) n :
  length bs = n -> int_bytes e n (int_value e bs) = bs.
Proof. intros <-. apply int_bytes_value. Qed.

Lemma ntohs_of_memory (bs : bytes) :
  length bs = 2%nat -> ntohs P (int_value (byte_order P) bs) = int_value BigEndian bs.
Proof.
  intro Hl. unfold ntohs. now rewrite int_bytes_value_of_length.
Qed.

Lemma ntohs_htons p : 0 <= p < 65536 -> ntohs P (htons P p) = p.
Proof.
  intro Hp. unfold htons.
  rewrite ntohs_of_memory by apply length_int_bytes.
  apply int_value_bytes. simpl. lia.
Qed.

Lemma htons_ntohs x : 0 <= x < 65536 -> htons P (ntohs P x) = x.
Proof.
  intro Hx. unfold htons, ntohs.
  rewrite int_bytes_value_of_length by apply length_int_bytes.
  apply int_value_bytes. simpl. lia.
Qed.

Lemma be16_value (b0 b1 : byte) :
  int_value BigEndian [b0; b1] = 256 * byte_to_Z b0 + byte_to_Z b1.
Proof. cbn [int_value rev app le_value]. lia. Qed.

Lemma unpack_sockaddr_in_inet (addr : bytes) host :
  (family_tag_end P <= length addr)%nat ->
  is_inet_family P (sa_family P addr) = true ->
  (sin_port_offset P + 2 <= length addr)%nat ->
  make_ipaddr H addr = Ok host ->
  sock_s_unpack_sockaddr_in P H addr
  = Ok (RArray [RInteger (int_value BigEndian (load (sin_port_offset P) 2 addr));
                host]).
Proof.
  intros Ht Hf Hl Eh.
  unfold sock_s_unpack_sockaddr_in, is_inet_family in *.
  destruct (Nat.ltb_spec (length addr) (family_tag_end P)); [lia |].
  assert (Hg : negb (sa_family P addr =? AF_INET P)
               && (if INET6 P then negb (sa_family P addr =? AF_INET6 P) else true)
               = false).
  { destruct (sa_family P addr =? AF_INET P); [reflexivity |].
    destruct (INET6 P); simpl in *; [now rewrite Hf | discriminate]. }
  rewrite Hg, Eh. cbn [rbind].
  destruct (Nat.ltb_spec (length addr) (sin_port_offset P + 2)); [lia |].
  unfold rb_assoc_new. rewrite ntohs_of_memory; [reflexivity |].
  now apply length_load.
Qed.

(** X9: [unpack_sockaddr_in] of an AF_INET or AF_INET6 string that holds
    the port field returns, with the host of [make_ipaddr], the port as
    the two bytes of the field read in network byte order, whatever the
    byte order of the machine: a number from 0 to 65535. *)
Theorem unpack_sockaddr_in_port (addr : bytes) host :
  (family_tag_end P <= length addr)%nat ->
  is_inet_family P (sa_family P addr) = true ->
  (sin_port_offset P + 2 <= length addr)%nat ->
  make_ipaddr H addr = Ok host ->
  sock_s_unpack_sockaddr_in P H addr
  = Ok (RArray [RInteger (int_value BigEndian (load (sin_port_offset P) 2 addr));
                host])
  /\ 0 <= int_value BigEndian (load (sin_port_offset P) 2 addr) < 65536.
Proof.
  intros Ht Hf Hl Eh. split; [now apply unpack_sockaddr_in_inet |].
  pose proof (length_load (sin_port_offset P) 2 addr Hl) as Hlen.
  destruct (load (sin_port_offset P) 2 addr) as [| b0 [| b1 [| ? ?]]];
    try discriminate.
  rewrite be16_value.
  pose proof (byte_to_Z_range b0). pose proof (byte_to_Z_range b1). lia.
Qed.

(** The string [sock_s_pack_sockaddr_un] makes, from the path field on. *)
Lemma pack_sockaddr_un_tail (path : bytes) :
  platform_wf P ->
  has_nul path = false -> (length path < sun_path_size P)%nat ->
  exists addr,
    sock_s_pack_sockaddr_un P path = Ok addr
    /\ length addr = sizeof_sockaddr_un P
    /\ sa_family P addr = AF_UNIX P
    /\ skipn (sun_path_offset P) addr
       = path ++ repeat x00 (sizeof_sockaddr_un P - sun_path_offset P - length path).
Proof.
  intros [Hfp Hpi Haf _] Hn Hl.
  eexists. split; [now apply pack_sockaddr_un_ok |].
  set (fam := int_bytes (byte_order P) (sa_family_size P) (AF_UNIX P)).
  set (zero := repeat x00 (sizeof_sockaddr_un P)).
  set (buf1 := store (sa_family_offset P) fam zero).
  set (cp := strncpy (sun_path_size P - 1) path).
  assert (Lf : length fam = sa_family_size P) by apply length_int_bytes.
  assert (Lz : length zero = sizeof_sockaddr_un P) by apply repeat_length.
  assert (L1 : length buf1 = sizeof_sockaddr_un P)
    by (unfold buf1; rewrite length_store; lia).
  assert (Ec : cp = path ++ repeat x00 (sun_path_size P - 1 - length path))
    by (apply strncpy_short; [exact Hn | lia]).
  assert (Lc : length cp = (sun_path_size P - 1)%nat)
    by (rewrite Ec, length_app, repeat_length; lia).
  split; [rewrite length_store; lia |]. split.
  - unfold sa_family. rewrite load_store_before by lia.
    unfold buf1. rewrite <- Lf, load_store_same by lia.
    now apply int_value_bytes.
  - rewrite skipn_store by lia. rewrite Lc, Ec, <- app_assoc. f_equal.
    unfold buf1, store.
    rewrite !skipn_app, length_firstn, Lf, Lz.
    rewrite (skipn_all2 (firstn _ zero)) by (rewrite length_firstn; lia).
    rewrite (skipn_all2 fam) by lia.
    rewrite skipn_skipn. unfold zero. rewrite skipn_repeat_nul.
    simpl. rewrite <- repeat_app. f_equal. lia.
Qed.

(** X10: the string [pack_sockaddr_un] makes of a path that fits has the
    size of [struct sockaddr_un], reads AF_UNIX as its family, and from
    the path field on holds the path and then NUL bytes only. *)
Theorem pack_sockaddr_un_layout (path : bytes) :
  platform_wf P ->
  has_nul path = false -> (length path < sun_path_size P)%nat ->
  exists addr,
    sock_s_pack_sockaddr_un P path = Ok addr
    /\ length addr = sizeof_sockaddr_un P
    /\ sa_family P addr = AF_UNIX P
    /\ skipn (sun_path_offset P) addr
       = path ++ repeat x00 (sizeof_sockaddr_un P - sun_path_offset P - length path).
Proof. intros. now apply pack_sockaddr_un_tail. Qed.

Lemma app_repeat_nul_inj (p q : bytes) n m :
  has_nul p = false -> has_nul q = false ->
  p ++ repeat x00 n = q ++ repeat x00 m -> p = q.
Proof.
  revert q. induction p as [| a p IH]; intros [| b q] Hp Hq E.
  - reflexivity.
  - exfalso. simpl in E, Hq. apply orb_false_elim in Hq as [Hb _].
    destruct n; simpl in E; [discriminate |]. injection E as <- _.
    discriminate.
  - exfalso. simpl in E, Hp. apply orb_false_elim in Hp as [Ha _].
    destruct m; simpl in E; [discriminate |]. injection E as -> _.
    discriminate.
  - simpl in *. apply orb_false_elim in Hp as [_ Hp].
    apply orb_false_elim in Hq as [_ Hq].
    injection E as -> E. f_equal. now apply IH.
Qed.

(** X11: [pack_sockaddr_un] packs two paths that fit into the same string
    only when they are the same path. *)
Theorem pack_sockaddr_un_injective (p q : bytes) :
  platform_wf P ->
  has_nul p = false -> has_nul q = false ->
  (length p < sun_path_size P)%nat -> (length q < sun_path_size P)%nat ->
  sock_s_pack_sockaddr_un P p = sock_s_pack_sockaddr_un P q ->
  p = q.
Proof.
  intros Hwf Hp Hq Lp Lq E.
  destruct (pack_sockaddr_un_tail p Hwf Hp Lp) as (a & Ea & _ & _ & Ta).
  destruct (pack_sockaddr_un_tail q Hwf Hq Lq) as (b & Eb & _ & _ & Tb).
  rewrite Ea, Eb in E. injection E as <-.
  rewrite Ta in Tb. now apply app_repeat_nul_inj in Tb.
Qed.

End CodecMore.

(* ------------------------------------------------------------------ *)
(** ** Services, hosts and names *)

Section ResolverMore.

Variable P : platform.
Variable H : helpers.
Variable O : host.


Lemma getservbyname_run (name : bytes) (proto : option bytes) (w : world) :
  has_nul name = false ->
  has_nul (protoname_of proto) = false ->
  sock_s_getservbyname P O (RString name) (optional_arg proto) w
  = (match os_getservbyname O (trace w) name (protoname_of proto) with
     | Some sp => Ok (INT2FIX P (ntohs P (s_port sp)))
     | None =>
         if (snd (STRTOUL P name 0) <? length name)%nat
         then Raise (Exc rb_eSocket "no such service %s/%s"
                         [FStr name; FStr (protoname_of proto)])
         else Ok (INT2FIX P (to_int (fst (STRTOUL P name 0))))
     end,
     after_calls w [ev_getservbyname name (protoname_of proto)] (errno w)).
Proof.
  intros Hn Hp.
  unfold sock_s_getservbyname, bind, lift, ret, query, StringValue, StringValueCStr.
  cbn beta iota. rewrite Hn.
  destruct proto as [p |]; cbn [optional_arg protoname_of NIL_P] in *;
    cbn beta iota; rewrite ?Hp; cbn beta iota;
    destruct (os_getservbyname O (trace w) name _); try reflexivity;
    destruct (STRTOUL P name 0) as [v e]; cbn [fst snd];
    destruct (e <? length name)%nat; reflexivity.
Qed.

Lemma getservbyport_run (port : Z) (proto : option bytes) (w : world) :
  32 <= long_bits P ->
  0 <= port < 65536 ->
  has_nul (protoname_of proto) = false ->
  sock_s_getservbyport P O (RInteger port) (optional_arg proto) w
  = (match os_getservbyport O (trace w) (htons P port) (protoname_of proto) with
     | Some sp => Ok (RString (s_name sp))
     | None => Raise (Exc rb_eSocket "no such service for port %d/%s"
                          [FInt port; FStr (protoname_of proto)])
     end,
     after_calls w [ev_getservbyport (htons P port) (protoname_of proto)] (errno w)).
Proof.
  intros Hlong Hr Hp.
  unfold sock_s_getservbyport, bind, lift, ret, query, num2long.
  rewrite fits_signed_small by lia. cbn beta iota.
  rewrite (Z.mod_small port) by lia. rewrite Z.eqb_refl. cbn [negb].
  destruct proto as [p |]; cbn [optional_arg protoname_of NIL_P] in *;
    unfold StringValue, StringValueCStr; cbn beta iota; rewrite ?Hp;
    cbn beta iota;
    destruct (os_getservbyport O (trace w) _ _); try reflexivity;
    rewrite to_int_small by lia; reflexivity.
Qed.

(** X12: [getservbyname] of a name the database has an entry for returns
    the port of the entry in host byte order, and does not read the name
    as a number. *)
Theorem getservbyname_entry name proto w sp p :
  32 <= long_bits P ->
  has_nul name = false ->
  has_nul (protoname_of proto) = false ->
  os_getservbyname O (trace w) name (protoname_of proto) = Some sp ->
  s_port sp = htons P p ->
  0 <= p < 65536 ->
  sock_s_getservbyname P O (RString name) (optional_arg proto) w
  = (Ok (RInteger p),
     after_calls w [ev_getservbyname name (protoname_of proto)] (errno w)).
Proof.
  intros Hlong Hn Hp Eos Eport Hr.
  rewrite getservbyname_run by assumption. rewrite Eos, Eport, ntohs_htons by lia.
  rewrite INT2FIX_small by lia. reflexivity.
Qed.

(** X13: [getservbyname] and then [getservbyport] on its result: when
    the database has the name under a port and that port under a name,
    the second call is asked for the very port of the first, in network
    byte order, and returns the name of its entry. *)
Theorem service_name_port_round_trip name proto w sp sp' p :
  32 <= long_bits P ->
  has_nul name = false ->
  has_nul (protoname_of proto) = false ->
  os_getservbyname O (trace w) name (protoname_of proto) = Some sp ->
  s_port sp = htons P p ->
  0 <= p < 65536 ->
  os_getservbyport O (trace w ++ [ev_getservbyname name (protoname_of proto)])
    (htons P p) (protoname_of proto) = Some sp' ->
  bind (sock_s_getservbyname P O (RString name) (optional_arg proto))
       (fun port => sock_s_getservbyport P O port (optional_arg proto)) w
  = (Ok (RString (s_name sp')),
     after_calls w [ev_getservbyname name (protoname_of proto);
                    ev_getservbyport (htons P p) (protoname_of proto)] (errno w)).
Proof.
  intros Hlong Hn Hp Eos Eport Hr Eos'.
  unfold bind at 1. rewrite getservbyname_run by assumption.
  rewrite Eos, Eport, ntohs_htons by lia. rewrite INT2FIX_small by lia.
  rewrite getservbyport_run by assumption.
  cbn [after_calls trace errno safe_level]. rewrite Eos'.
  unfold after_calls. cbn [trace errno safe_level]. now rewrite <- app_assoc.
Qed.

(** X14: the service lookups never hand the database a string that
    holds a NUL byte. With a service String or a protocol String that
    holds one, [getservbyname] raises ArgumentError "string contains null
    byte"; so does [getservbyport] on an Integer port from 0 to 65535 with
    such a protocol, and on any other Integer port it raises as well. The
    world is as before: nothing was looked up. *)
Theorem service_lookup_validates_arguments w :
  platform_wf P ->
  (forall name proto,
     has_nul name = true ->
     sock_s_getservbyname P O (RString name) (optional_arg proto) w
     = (Raise (Exc rb_eArgError "string contains null byte" []), w))
  /\ (forall name proto,
        has_nul proto = true ->
        sock_s_getservbyname P O (RString name) (RString proto) w
        = (Raise (Exc rb_eArgError "string contains null byte" []), w))
  /\ (forall n proto,
        has_nul proto = true ->
        (0 <= n <= 65535 ->
         sock_s_getservbyport P O (RInteger n) (RString proto) w
         = (Raise (Exc rb_eArgError "string contains null byte" []), w))
        /\ exists ex,
             sock_s_getservbyport P O (RInteger n) (RString proto) w = (Raise ex, w)).
Proof.
  intro Hwf. split; [| split].
  - intros name proto Hs.
    unfold sock_s_getservbyname, bind, lift, ret, StringValue, StringValueCStr, rb_raise.
    rewrite Hs. destruct proto as [q |]; reflexivity.
  - intros name proto Hp.
    unfold sock_s_getservbyname, bind, lift, ret, StringValue, StringValueCStr, rb_raise.
    cbn [NIL_P]. rewrite Hp. destruct (has_nul name); reflexivity.
  - intros n proto Hp. split; [intro Hn |];
      unfold sock_s_getservbyport, bind, lift, ret, num2long, StringValue,
        StringValueCStr, rb_raise.
    + assert (Hfit : fits_signed (long_bits P) n = true).
      { pose proof (wf_long Hwf) as Hl. unfold fits_signed.
        assert (2 ^ 31 <= 2 ^ (long_bits P - 1))
          by (apply Z.pow_le_mono_r; lia).
        apply andb_true_intro. split; [apply Z.leb_le | apply Z.ltb_lt]; lia. }
      rewrite Hfit. cbn beta iota.
      rewrite (Z.mod_small n 65536) by lia. rewrite Z.eqb_refl.
      cbn [negb NIL_P]. now rewrite Hp.
    + cbn [NIL_P]. rewrite Hp.
      destruct (fits_signed (long_bits P) n); [| eexists; reflexivity].
      destruct (negb (n =? n mod 65536)); eexists; reflexivity.
Qed.

(** X15: the host of [getnameinfo]'s array is copied into [hbuf]: what
    is resolved is the host up to its first NUL, cut to 1023 bytes; a
    host with no NUL that fits is resolved as it is. *)
Theorem host_arg_truncates (s : bytes) :
  exists h,
    host_arg (RString s) = Ok (Some h)
    /\ (length h <= 1023)%nat
    /\ has_nul h = false
    /\ h = firstn 1023 (until_nul s)
    /\ (has_nul s = false -> (length s <= 1023)%nat -> h = s).
Proof.
  exists (to_cbuf 1024 s). unfold host_arg, to_cbuf. cbn [NIL_P StringValue rbind].
  change (1024 - 1)%nat with 1023%nat.
  repeat split.
  - apply firstn_le_length.
  - assert (Hu : has_nul (until_nul s) = false).
    { induction s as [| b r IH]; [reflexivity |].
      simpl. destruct (is_nul b) eqn:E; [reflexivity |]. simpl. now rewrite E. }
    revert Hu. generalize (until_nul s) as m. intro m.
    generalize 1023%nat as n. intro n. revert m.
    induction n; intros m Hm; [reflexivity |].
    destruct m as [| b m]; [reflexivity |].
    simpl in *. apply orb_false_elim in Hm as [Hb Hm]. rewrite Hb. now apply IHn.
  - intros Hn Hl. rewrite until_nul_no_nul by exact Hn. now apply firstn_all2.
Qed.

(** X16: [getnameinfo] of a packed sockaddr. A string longer than
    [struct sockaddr_storage] raises TypeError with no lookup. A string
    that fits, and that covers the bytes of the structure [SA_LEN] reads,
    raises TypeError with no lookup when its length is not the one
    [SA_LEN] says; when it is, the string is looked up once, and the names
    are returned, or the error of the lookup raised as a "getnameinfo"
    error. *)
Theorem getnameinfo_string_checks (s : bytes) flags fl w :
  flags_arg P flags = Ok fl ->
  ((sizeof_sockaddr_storage P < length s)%nat ->
   sock_s_getnameinfo P H O (RString s) flags w
   = (Raise (Exc rb_eTypeError "sockaddr length too big" []), w))
  /\ ((SA_LEN_reads P <= length s <= sizeof_sockaddr_storage P)%nat ->
      length s <> SA_LEN P s ->
      sock_s_getnameinfo P H O (RString s) flags w
      = (Raise (Exc rb_eTypeError "sockaddr size differs - should not happen" []), w))
  /\ ((SA_LEN_reads P <= length s <= sizeof_sockaddr_storage P)%nat ->
      length s = SA_LEN P s ->
      forall code h p,
        os_rb_getnameinfo O (trace w) s (SA_LEN P s) fl = (code, (h, p)) ->
        sock_s_getnameinfo P H O (RString s) flags w
        = (if code =? 0
           then Ok (RArray [RString (until_nul h); RString (until_nul p)])
           else Raise (ResolvFail "getnameinfo" code),
           after_calls w [ev_rb_getnameinfo s (SA_LEN P s) fl] (errno w))).
Proof.
  intro Ef.
  unfold sock_s_getnameinfo, bind, lift. rewrite Ef. cbn beta iota.
  split; [| split].
  - intro Hl. destruct (Nat.ltb_spec (sizeof_sockaddr_storage P) (length s)); [| lia].
    reflexivity.
  - intros Hl Hne.
    destruct (Nat.ltb_spec (sizeof_sockaddr_storage P) (length s)); [lia |].
    destruct (Nat.ltb_spec (length s) (SA_LEN_reads P)); [lia |].
    destruct (Nat.eqb_spec (length s) (SA_LEN P s)); [contradiction | reflexivity].
  - intros Hl He code h p Eos.
    destruct (Nat.ltb_spec (sizeof_sockaddr_storage P) (length s)); [lia |].
    destruct (Nat.ltb_spec (length s) (SA_LEN_reads P)); [lia |].
    destruct (Nat.eqb_spec (length s) (SA_LEN P s)); [| contradiction].
    cbn [negb]. unfold call_nameinfo, rb_getnameinfo, bind, query, ret,
      raise_socket_error, lift.
    rewrite Eos. cbn beta iota.
    destruct (code =? 0); reflexivity.
Qed.

(** X17: [getnameinfo] of what is neither String nor Array raises
    TypeError, and of an array of fewer than three elements ArgumentError
    with the size it has; nothing is looked up. *)
Theorem getnameinfo_bad_argument sa flags fl w :
  flags_arg P flags = Ok fl ->
  ((forall s, sa <> RString s) -> (forall l, sa <> RArray l) ->
   sock_s_getnameinfo P H O sa flags w
   = (Raise (Exc rb_eTypeError "expecting String or Array" []), w))
  /\ (forall l,
        sa = RArray l -> (length l < 3)%nat ->
        sock_s_getnameinfo P H O sa flags w
        = (Raise (Exc rb_eArgError "array size should be 3 or 4, %ld given"
                      [FInt (Z.of_nat (length l))]), w)).
Proof.
  intro Ef. unfold sock_s_getnameinfo, bind, lift. rewrite Ef. cbn beta iota.
  split.
  - intros Hs Hl. destruct sa as [| n | s | s | l | fd | sk a]; try reflexivity.
    + now destruct (Hs s).
    + now destruct (Hl l).
  - intros l -> Hl.
    destruct l as [| a [| b [| c l]]]; simpl in Hl; try lia; reflexivity.
Qed.

End ResolverMore.

Section ResolverArrays.

Variable P : platform.
Variable H : helpers.
Variable O : host.

Lemma check_candidates_extends fl hn pn rs :
  forall w, exists evs,
    trace (snd (check_candidates P O fl hn pn rs w)) = trace w ++ evs.
Proof.
  induction rs as [| r rs IH]; intro w.
  - exists []. simpl. now rewrite app_nil_r.
  - cbn [check_candidates].
    unfold rb_getnameinfo, bind, query, ret, raise_socket_error, lift.
    destruct (os_rb_getnameinfo O (trace w) (ai_addr r) (SA_LEN P (ai_addr r)) fl)
      as [code [h p]].
    cbn beta iota.
    destruct (negb (code =? 0)); [eexists; reflexivity |].
    destruct (negb (bytes_eqb hn (until_nul h)) || negb (bytes_eqb pn (until_nul p)));
      [eexists; reflexivity |].
    destruct (IH (emit (ev_rb_getnameinfo (ai_addr r) (SA_LEN P (ai_addr r)) fl) w))
      as [evs E].
    rewrite E. cbn [emit trace]. rewrite <- app_assoc. eexists. reflexivity.
Qed.

Lemma call_nameinfo_extends fl sap res w :
  exists evs, trace (snd (call_nameinfo P O fl sap res w)) = trace w ++ evs.
Proof.
  unfold call_nameinfo, rb_getnameinfo, bind, query, ret, raise_socket_error, lift.
  destruct (os_rb_getnameinfo O (trace w) sap (SA_LEN P sap) fl) as [code [h p]].
  cbn beta iota.
  destruct (negb (code =? 0)); [eexists; reflexivity |].
  destruct res as [rs |].
  - destruct (check_candidates_extends fl (until_nul h) (until_nul p) (tl rs)
                (emit (ev_rb_getnameinfo sap (SA_LEN P sap) fl) w)) as [evs E].
    destruct (check_candidates P O fl (until_nul h) (until_nul p) (tl rs) _)
      as [[[] | ex |] w'] eqn:Ec; cbn [snd] in *;
      rewrite E; cbn [emit trace]; rewrite <- app_assoc; eexists; reflexivity.
  - eexists. reflexivity.
Qed.

Lemma lookup_array_first_call fl af port host ai_flags w hptr pptr family :
  host_arg host = Ok hptr ->
  port_arg P port = Ok pptr ->
  af_arg P H af = Ok family ->
  exists rest,
    issued (lookup_array P H O fl af port host ai_flags) w
    = ev_rb_getaddrinfo hptr pptr (hints_for P fl ai_flags family) :: rest.
Proof.
  intros Eh Ep Ef.
  unfold issued, lookup_array, bind, lift, query, raise_socket_error.
  rewrite Eh, Ep, Ef. cbn beta iota.
  destruct (os_rb_getaddrinfo O (trace w) hptr pptr (hints_for P fl ai_flags family))
    as [code res].
  cbn beta iota.
  destruct (negb (code =? 0)).
  - exists []. cbn [snd emit trace]. apply skipn_app_length.
  - destruct res as [| r res].
    + exists []. cbn [snd emit trace]. apply skipn_app_length.
    + destruct (call_nameinfo_extends fl (ai_addr r) (Some (r :: res))
                  (emit (ev_rb_getaddrinfo hptr pptr (hints_for P fl ai_flags family)) w))
        as [evs E].
      rewrite E. cbn [emit trace]. rewrite <- app_assoc.
      exists evs. apply skipn_app_length.
Qed.

(** X18: [getnameinfo] of an array of four elements or more. When the
    fourth is a String, it is what [getaddrinfo] is asked for, with
    AI_NUMERICHOST, and the third is not looked at; when the fourth is
    nil, the third is asked for, with no flag. *)
Theorem getnameinfo_numeric_host af port host2 host3 more flags fl w pptr family :
  flags_arg P flags = Ok fl ->
  port_arg P port = Ok pptr ->
  af_arg P H af = Ok family ->
  (forall s,
     host3 = RString s ->
     exists rest,
       issued (sock_s_getnameinfo P H O
                 (RArray (af :: port :: host2 :: host3 :: more)) flags) w
       = ev_rb_getaddrinfo (Some (to_cbuf 1024 s)) pptr
           (hints_for P fl (numeric_host_flag P) family) :: rest)
  /\ (host3 = Qnil ->
      forall hptr,
        host_arg host2 = Ok hptr ->
        exists rest,
          issued (sock_s_getnameinfo P H O
                    (RArray (af :: port :: host2 :: host3 :: more)) flags) w
          = ev_rb_getaddrinfo hptr pptr (hints_for P fl 0 family) :: rest).
Proof.
  intros Ef Ep Ea.
  assert (Hrun : forall host ai_flags,
            array_fields P (af :: port :: host2 :: host3 :: more)
              = Some (af, port, host, ai_flags) ->
            issued (sock_s_getnameinfo P H O
                      (RArray (af :: port :: host2 :: host3 :: more)) flags) w
            = issued (lookup_array P H O fl af port host ai_flags) w).
  { intros host ai_flags E. unfold issued at 1, sock_s_getnameinfo, bind, lift.
    rewrite Ef. cbn beta iota. rewrite E. reflexivity. }
  split.
  - intros s ->. rewrite (Hrun (RString s) (numeric_host_flag P)) by reflexivity.
    now apply lookup_array_first_call.
  - intros -> hptr Eh. rewrite (Hrun host2 0) by reflexivity.
    now apply lookup_array_first_call.
Qed.

Lemma getnameinfo_array_run l flags w af port host ai_flags fl hptr pptr family :
  array_fields P l = Some (af, port, host, ai_flags) ->
  flags_arg P flags = Ok fl ->
  host_arg host = Ok hptr ->
  port_arg P port = Ok pptr ->
  af_arg P H af = Ok family ->
  sock_s_getnameinfo P H O (RArray l) flags w
  = (let '(error, res) :=
       os_rb_getaddrinfo O (trace w) hptr pptr (hints_for P fl ai_flags family) in
     let w1 := emit (ev_rb_getaddrinfo hptr pptr (hints_for P fl ai_flags family)) w in
     if negb (error =? 0) then (Raise (ResolvFail "getaddrinfo" error), w1)
     else match res with
          | [] => (Undefined, w1)
          | r :: _ => call_nameinfo P O fl (ai_addr r) (Some res) w1
          end).
Proof.
  intros Ea Ef Eh Ep Efam.
  unfold sock_s_getnameinfo, lookup_array, bind, lift, query, raise_socket_error.
  rewrite Ef, Ea, Eh, Ep, Efam. cbn beta iota.
  destruct (os_rb_getaddrinfo O (trace w) hptr pptr (hints_for P fl ai_flags family))
    as [code res].
  cbn beta iota. destruct (negb (code =? 0)); [reflexivity |].
  destruct res; reflexivity.
Qed.

(** A candidate whose lookup fails, after candidates that gave the names
    [hn] and [pn]. *)
Lemma check_candidates_lookup_fails fl answer hn pn pre r post code :
  (forall tr x, In x (pre ++ [r]) ->
     os_rb_getnameinfo O tr (ai_addr x) (SA_LEN P (ai_addr x)) fl = answer (ai_addr x)) ->
  (forall x, In x pre ->
     fst (answer (ai_addr x)) = 0
     /\ names_of (fun sa => snd (answer sa)) x = (hn, pn)) ->
  fst (answer (ai_addr r)) = code -> code <> 0 ->
  forall w,
    check_candidates P O fl hn pn (pre ++ r :: post) w
    = (Raise (ResolvFail "getnameinfo" code),
       after_calls w (nameinfo_events P fl (pre ++ [r])) (errno w)).
Proof.
  intros Hos Hpre Hr Hc.
  induction pre as [| x pre IH]; intro w.
  - cbn [app check_candidates].
    unfold rb_getnameinfo, bind, query, ret, raise_socket_error, lift.
    rewrite (Hos _ r) by (now left).
    destruct (answer (ai_addr r)) as [c [h p]]. cbn [fst] in Hr. subst c.
    cbn beta iota. apply Z.eqb_neq in Hc. rewrite Hc. reflexivity.
  - cbn [app check_candidates].
    unfold rb_getnameinfo, bind, query, ret.
    rewrite (Hos _ x) by (now left).
    destruct (Hpre x (or_introl eq_refl)) as [Hx0 Hxn].
    unfold names_of in Hxn.
    destruct (answer (ai_addr x)) as [c [h p]]. cbn [fst snd] in *. subst c.
    injection Hxn as Eh Ep.
    cbn beta iota. rewrite Z.eqb_refl. cbn [negb].
    rewrite Eh, Ep.
    assert (Eh' : bytes_eqb hn hn = true) by now apply bytes_eqb_eq.
    assert (Ep' : bytes_eqb pn pn = true) by now apply bytes_eqb_eq.
    rewrite Eh', Ep'. cbn [negb orb].
    rewrite IH.
    + unfold after_calls, emit. cbn [trace errno safe_level nameinfo_events map app].
      now rewrite <- app_assoc.
    + intros tr y Hy. apply Hos. now right.
    + intros y Hy. apply Hpre. now right.
Qed.

(** X19: [getnameinfo] of an array when the resolver fails. An error of
    [getaddrinfo] is raised as a "getaddrinfo" error after that one call.
    When the candidates before [r] all give the names of the first and
    the lookup of [r] fails, its error is raised as a "getnameinfo"
    error, and the candidates behind [r] are not looked up. *)
Theorem getnameinfo_resolver_errors l flags w af port host ai_flags fl hptr pptr family :
  array_fields P l = Some (af, port, host, ai_flags) ->
  flags_arg P flags = Ok fl ->
  host_arg host = Ok hptr ->
  port_arg P port = Ok pptr ->
  af_arg P H af = Ok family ->
  let asked := ev_rb_getaddrinfo hptr pptr (hints_for P fl ai_flags family) in
  (forall code res,
     os_rb_getaddrinfo O (trace w) hptr pptr (hints_for P fl ai_flags family)
       = (code, res) ->
     code <> 0 ->
     sock_s_getnameinfo P H O (RArray l) flags w
     = (Raise (ResolvFail "getaddrinfo" code), after_calls w [asked] (errno w)))
  /\ (forall answer r0 pre r post code,
        os_rb_getaddrinfo O (trace w) hptr pptr (hints_for P fl ai_flags family)
          = (0, r0 :: pre ++ r :: post) ->
        (forall tr x, In x (r0 :: pre ++ [r]) ->
           os_rb_getnameinfo O tr (ai_addr x) (SA_LEN P (ai_addr x)) fl
           = answer (ai_addr x)) ->
        (forall x, In x (r0 :: pre) ->
           fst (answer (ai_addr x)) = 0
           /\ names_of (fun sa => snd (answer sa)) x
              = names_of (fun sa => snd (answer sa)) r0) ->
        fst (answer (ai_addr r)) = code -> code <> 0 ->
        sock_s_getnameinfo P H O (RArray l) flags w
        = (Raise (ResolvFail "getnameinfo" code),
           after_calls w (asked :: nameinfo_events P fl (r0 :: pre ++ [r])) (errno w))).
Proof.
  intros Ea Ef Eh Ep Efam asked. split.
  - intros code res Eos Hc.
    rewrite (getnameinfo_array_run l flags w af port host ai_flags fl hptr pptr family)
      by assumption.
    rewrite Eos. apply Z.eqb_neq in Hc. rewrite Hc. reflexivity.
  - intros answer r0 pre r post code Eos Hans Hpre Hr Hc.
    rewrite (getnameinfo_array_run l flags w af port host ai_flags fl hptr pptr family)
      by assumption.
    rewrite Eos. cbn [Z.eqb negb].
    unfold call_nameinfo, rb_getnameinfo, bind, query, ret.
    rewrite (Hans _ r0) by (now left).
    destruct (Hpre r0 (or_introl eq_refl)) as [H0 _].
    assert (Hn0 : names_of (fun sa => snd (answer sa)) r0
                  = (until_nul (fst (snd (answer (ai_addr r0)))),
                     until_nul (snd (snd (answer (ai_addr r0)))))) by reflexivity.
    destruct (answer (ai_addr r0)) as [c [h p]]. cbn [fst snd] in *. subst c.
    cbn beta iota. cbn [Z.eqb negb tl].
    rewrite (check_candidates_lookup_fails fl answer (until_nul h) (until_nul p)
               pre r post code).
    + unfold after_calls, emit, asked.
      cbn [trace errno safe_level nameinfo_events map app].
      rewrite <- !app_assoc. reflexivity.
    + intros tr x Hx. apply Hans. now right.
    + intros x Hx. destruct (Hpre x (or_intror Hx)) as [Hx0 Hxn].
      split; [exact Hx0 |]. now rewrite Hxn, Hn0.
    + exact Hr.
    + exact Hc.
Qed.

(** X20: [gethostbyaddr], the family settled. One lookup is made. When it
    finds nothing, SocketError is raised, with the text of [hstrerror]
    where there is one. When it finds a host, the array holds the name,
    the aliases (none when the list is NULL), the address type and then
    every address, in the order of the entry. *)
Theorem gethostbyaddr_outcomes (a : bytes) family t w :
  (if NIL_P family
   then Ok (if INET6 P && Nat.eqb (length a) 16 then AF_INET6 P else AF_INET P)
   else family_arg H family) = Ok t ->
  (forall msg,
     os_gethostbyaddr O (trace w) a (length a) t = inr msg ->
     sock_s_gethostbyaddr P H O (RString a) family w
     = (Raise (if HAVE_HSTRERROR P then Exc rb_eSocket "%s" [FStr msg]
               else Exc rb_eSocket "host not found" []),
        after_calls w [ev_gethostbyaddr a (length a) t] (errno w)))
  /\ (forall h,
        os_gethostbyaddr O (trace w) a (length a) t = inl h ->
        h_addr_defined P = true ->
        exists names,
          sock_s_gethostbyaddr P H O (RString a) family w
          = (Ok (RArray (RString (h_name h) :: RArray names
                          :: RInteger (h_addrtype h)
                          :: map RString (h_addr_list h))),
             after_calls w [ev_gethostbyaddr a (length a) t] (errno w))
          /\ (h_aliases h = None -> names = [])
          /\ (forall l, h_aliases h = Some l -> names = map RString l)).
Proof.
  intro Et.
  assert (Hrun : forall r : hostent + bytes,
            os_gethostbyaddr O (trace w) a (length a) t = r ->
            sock_s_gethostbyaddr P H O (RString a) family w
            = (match r with
               | inr msg =>
                   if HAVE_HSTRERROR P then rb_raise rb_eSocket "%s" [FStr msg]
                   else rb_raise rb_eSocket "host not found" []
               | inl h =>
                   Ok (RArray ([RString (h_name h);
                                RArray match h_aliases h with
                                       | Some l => map RString l
                                       | None => []
                                       end;
                                RInteger (h_addrtype h)]
                               ++ map RString
                                    (if h_addr_defined P then h_addr_list h
                                     else firstn 1 (h_addr_list h))))
               end,
               after_calls w [ev_gethostbyaddr a (length a) t] (errno w))).
  { intros r Eos.
    unfold sock_s_gethostbyaddr, bind, lift, ret, query, StringValue.
    cbn beta iota.
    destruct (NIL_P family); cbn [negb] in *.
    - destruct (INET6 P && Nat.eqb (length a) 16); injection Et as <-;
        cbn beta iota; rewrite Eos; destruct r as [h | msg];
        try destruct (HAVE_HSTRERROR P); reflexivity.
    - rewrite Et. cbn beta iota. rewrite Eos. destruct r as [h | msg];
        try destruct (HAVE_HSTRERROR P); reflexivity. }
  split.
  - intros msg Eos. rewrite (Hrun _ Eos).
    destruct (HAVE_HSTRERROR P); reflexivity.
  - intros h Eos Hd. rewrite (Hrun _ Eos), Hd.
    exists (match h_aliases h with Some l => map RString l | None => [] end).
    split; [reflexivity |].
    split; [now intros -> | now intros l ->].
Qed.

End ResolverArrays.

(* ------------------------------------------------------------------ *)
(** ** Address lists and the host name *)

Section AddrInfoFacts.

Variable P : platform.
Variable H : helpers.
Variable ipaddr : bytes -> bool -> result (list rvalue).
Variable sock_getaddrinfo :
  rvalue -> rvalue -> addrinfo_request -> result (list addrinfo).
Variable sock_addrinfo : rvalue -> rvalue -> Z -> Z -> result (list addrinfo).

Lemma ary_store_third ary v ary' :
  ary_store ary 2 v = Ok ary' -> nth_error ary' 2 = Some v.
Proof.
  unfold ary_store. destruct (Nat.ltb_spec 2 (length ary)); [| discriminate].
  intros [= <-].
  destruct ary as [| a [| b [| c l]]]; simpl in *; try lia. reflexivity.
Qed.

Lemma addrinfo_entry_ok norev r v :
  addrinfo_entry P ipaddr norev r = Ok v ->
  exists ary,
    v = RArray (ary ++ family_socktype_protocol P r)
    /\ (forall name, ai_canonname r = Some name ->
          nth_error ary 2 = Some (RString (until_nul name)))
    /\ (ai_canonname r = None -> ipaddr (ai_addr r) norev = Ok ary).
Proof.
  unfold addrinfo_entry.
  destruct (ipaddr (ai_addr r) norev) as [ary | |]; cbn [rbind]; try discriminate.
  destruct (ai_canonname r) as [name |].
  - destruct (ary_store ary 2 (RString (until_nul name))) as [ary' | |] eqn:Es;
      cbn [rbind]; try discriminate.
    intros [= <-]. exists ary'. split; [reflexivity |]. split.
    + intros name' [= <-]. now apply ary_store_third in Es.
    + discriminate.
  - cbn [rbind]. intros [= <-]. exists ary. split; [reflexivity |].
    split; [discriminate | reflexivity].
Qed.

Lemma addrinfo_entries_ok norev res :
  forall base,
    addrinfo_entries P ipaddr norev res = Ok base ->
    length base = length res
    /\ forall i r, nth_error res i = Some r ->
         exists v, nth_error base i = Some v
                   /\ addrinfo_entry P ipaddr norev r = Ok v.
Proof.
  induction res as [| r res IH]; intros base E.
  - injection E as <-. split; [reflexivity |]. intros [| i] r; discriminate.
  - cbn [addrinfo_entries] in E.
    destruct (addrinfo_entry P ipaddr norev r) as [v | |] eqn:Ev; cbn [rbind] in E;
      try discriminate.
    destruct (addrinfo_entries P ipaddr norev res) as [base' | |]; cbn [rbind] in E;
      try discriminate.
    injection E as <-. destruct (IH base' eq_refl) as [Hl Hn].
    split; [simpl; now rewrite Hl |].
    intros [| i] r' Hr; cbn [nth_error] in *.
    + injection Hr as <-. now exists v.
    + now apply Hn.
Qed.

Lemma make_addrinfo_ok norev res v :
  make_addrinfo P ipaddr norev res = Ok v ->
  exists base,
    v = RArray base
    /\ length base = length res
    /\ forall i r, nth_error res i = Some r ->
         exists ary,
           nth_error base i = Some (RArray (ary ++ family_socktype_protocol P r))
           /\ (forall name, ai_canonname r = Some name ->
                 nth_error ary 2 = Some (RString (until_nul name)))
           /\ (ai_canonname r = None -> ipaddr (ai_addr r) norev = Ok ary).
Proof.
  unfold make_addrinfo. destruct res as [| r0 res0]; [discriminate |].
  destruct (addrinfo_entries P ipaddr norev (r0 :: res0)) as [base | |] eqn:Eb;
    cbn [rbind]; try discriminate.
  intros [= <-]. exists base. split; [reflexivity |].
  destruct (addrinfo_entries_ok norev _ base Eb) as [Hl Hn].
  split; [exact Hl |].
  intros i r Hr. destruct (Hn i r Hr) as (v & Hv & Ev).
  destruct (addrinfo_entry_ok norev r v Ev) as (ary & -> & Hc & Hi).
  now exists ary.
Qed.

(** X21: [getaddrinfo], the hints made and the resolver asked. An empty
    list raises SocketError "host not found". Otherwise a result has one
    entry for each candidate, in the order of the resolver; each entry
    ends in the family, socket type and protocol of its candidate, holds
    its canonical name third when it has one, and is what [ipaddr] gave
    before that when it has none. *)
Theorem getaddrinfo_keeps_resolver_order
    norev host port family socktype protocol flags hints res :
  getaddrinfo_hints P H family socktype protocol flags = Ok hints ->
  sock_getaddrinfo host port hints = Ok res ->
  (res = [] ->
   sock_s_getaddrinfo P H ipaddr sock_getaddrinfo norev
     host port family socktype protocol flags
   = Raise (Exc rb_eSocket "host not found" []))
  /\ (forall v,
        sock_s_getaddrinfo P H ipaddr sock_getaddrinfo norev
          host port family socktype protocol flags = Ok v ->
        exists base,
          v = RArray base
          /\ length base = length res
          /\ forall i r, nth_error res i = Some r ->
               exists ary,
                 nth_error base i = Some (RArray (ary ++ family_socktype_protocol P r))
                 /\ (forall name, ai_canonname r = Some name ->
                       nth_error ary 2 = Some (RString (until_nul name)))
                 /\ (ai_canonname r = None -> ipaddr (ai_addr r) norev = Ok ary)).
Proof.
  intros Eh Er. unfold sock_s_getaddrinfo. rewrite Eh. cbn [rbind].
  rewrite Er. cbn [rbind]. split.
  - now intros ->.
  - intros v Ev. now apply make_addrinfo_ok.
Qed.

(** X22: [make_addrinfo] raises what [ipaddr] raises for the first
    candidate it fails on, and returns no part of the list. *)
Theorem make_addrinfo_first_failure norev pre r post ex :
  (forall x, In x pre -> exists v, addrinfo_entry P ipaddr norev x = Ok v) ->
  ipaddr (ai_addr r) norev = Raise ex ->
  make_addrinfo P ipaddr norev (pre ++ r :: post) = Raise ex.
Proof.
  intros Hpre Er.
  assert (He : addrinfo_entries P ipaddr norev (pre ++ r :: post) = Raise ex).
  { induction pre as [| x pre IH]; cbn [app addrinfo_entries].
    - unfold addrinfo_entry. now rewrite Er.
    - destruct (Hpre x (or_introl eq_refl)) as [v Ev]. rewrite Ev. cbn [rbind].
      rewrite IH; [reflexivity |]. intros y Hy. apply Hpre. now right. }
  unfold make_addrinfo. rewrite He.
  destruct (pre ++ r :: post) eqn:E; [| reflexivity].
  now destruct pre.
Qed.

(** X24: [pack_sockaddr_in] returns the address of the first candidate
    of the resolver, whatever follows it; when that is an AF_INET or
    AF_INET6 address with the port [p] in its port field,
    [unpack_sockaddr_in] gives [p] back. *)
Theorem pack_unpack_sockaddr_in port host r rest p ip :
  sock_addrinfo host port 0 0 = Ok (r :: rest) ->
  (family_tag_end P <= length (ai_addr r))%nat ->
  is_inet_family P (sa_family P (ai_addr r)) = true ->
  (sin_port_offset P + 2 <= length (ai_addr r))%nat ->
  load (sin_port_offset P) 2 (ai_addr r) = int_bytes BigEndian 2 p ->
  0 <= p < 65536 ->
  make_ipaddr H (ai_addr r) = Ok ip ->
  sock_s_pack_sockaddr_in sock_addrinfo port host = Ok (ai_addr r)
  /\ rbind (sock_s_pack_sockaddr_in sock_addrinfo port host)
           (sock_s_unpack_sockaddr_in P H)
     = Ok (RArray [RInteger p; ip]).
Proof.
  intros Er Ht Hf Hl Ep Hp Ei.
  unfold sock_s_pack_sockaddr_in. rewrite Er. cbn [rbind].
  split; [reflexivity |].
  rewrite (unpack_sockaddr_in_inet P H (ai_addr r) ip) by assumption.
  rewrite Ep, int_value_bytes; [reflexivity | simpl; lia].
Qed.

End AddrInfoFacts.

Section HostnameFacts.

Lemma until_nul_has_no_nul (m : bytes) : has_nul (until_nul m) = false.
Proof.
  induction m as [| b r IH]; [reflexivity |].
  simpl. destruct (is_nul b) eqn:E; [reflexivity |]. simpl. now rewrite E.
Qed.

Lemma until_nul_stops (a r : bytes) :
  (length (until_nul (a ++ x00 :: r)) <= length a)%nat.
Proof.
  induction a as [| b a IH]; simpl; [lia |].
  destruct (is_nul b); simpl; lia.
Qed.

Lemma firstn_app_cons (a : bytes) x r n :
  (length a < n)%nat ->
  firstn n (a ++ x :: r) = a ++ x :: firstn (n - length a - 1) r.
Proof.
  intro Hl. rewrite firstn_app, firstn_all2 by lia. f_equal.
  destruct (n - length a)%nat as [| k] eqn:E; [lia |].
  simpl. f_equal. f_equal. lia.
Qed.

Lemma until_nul_app_nul_any (a r : bytes) :
  until_nul (a ++ x00 :: r) = until_nul a.
Proof.
  induction a as [| b a IH]; simpl; [reflexivity |].
  destruct (is_nul b); [reflexivity | now rewrite IH].
Qed.

Lemma has_nul_firstn k (m : bytes) : has_nul m = false -> has_nul (firstn k m) = false.
Proof.
  revert m. induction k; intros m Hm; [reflexivity |].
  destruct m as [| b m]; [reflexivity |].
  simpl in *. apply orb_false_elim in Hm as [Hb Hm]. rewrite Hb. now apply IHk.
Qed.

Lemma store_at_start (bs buf : bytes) : store 0 bs buf = bs ++ skipn (length bs) buf.
Proof. reflexivity. Qed.

(** The name in a buffer of [k + 1] bytes after [gethostname(buf, k)] and
    [buf[k] = 0]. *)
Lemma hostname_of_buffer k (written buf : bytes) :
  until_nul (store k [x00] (store 0 (firstn k written) buf))
  = until_nul (firstn k (firstn k written ++ skipn (length (firstn k written)) buf)).
Proof.
  rewrite store_at_start. unfold store. cbn [app]. apply until_nul_app_nul_any.
Qed.

Lemma hostname_written k (host rest tail : bytes) :
  has_nul host = false ->
  until_nul (firstn k (firstn k (host ++ x00 :: rest) ++ tail)) = firstn k host.
Proof.
  intro Hh. destruct (Nat.lt_ge_cases (length host) k) as [Hlt | Hge].
  - rewrite (firstn_app_cons host) by exact Hlt.
    rewrite <- app_assoc. cbn [app].
    rewrite (firstn_app_cons host) by exact Hlt.
    rewrite until_nul_app_nul by exact Hh.
    symmetry. apply firstn_all2. lia.
  - assert (E : firstn k (host ++ x00 :: rest) = firstn k host).
    { rewrite firstn_app. replace (k - length host)%nat with O by lia.
      cbn [firstn]. apply app_nil_r. }
    rewrite E, firstn_app, firstn_firstn, Nat.min_id, length_firstn.
    replace (k - Nat.min k (length host))%nat with O by lia.
    cbn [firstn]. rewrite app_nil_r.
    apply until_nul_no_nul. now apply has_nul_firstn.
Qed.

(** X23: [gethostname] below [$SAFE] 3. A failure of the system call
    raises SystemCallError "gethostname" with its [errno]. Otherwise the
    name returned has 1023 bytes at most and no NUL, whatever the system
    wrote and whatever the buffer held; when the system wrote a name and
    its NUL, it is that name, cut to 1023 bytes. *)
Theorem gethostname_bounded HAVE_UNAME buf n e written w :
  safe_level w < 3 ->
  (n < 0 ->
   fst (sock_gethostname true HAVE_UNAME buf (n, e, written) w)
   = Raise (SysFail "gethostname" e))
  /\ (0 <= n ->
      exists name,
        fst (sock_gethostname true HAVE_UNAME buf (n, e, written) w)
        = Ok (RString name)
        /\ (length name <= 1023)%nat
        /\ has_nul name = false
        /\ (forall host rest,
              written = host ++ x00 :: rest -> has_nul host = false ->
              name = firstn 1023 host)).
Proof.
  intro Hs.
  unfold sock_gethostname, bind, rb_secure, rb_sys_fail.
  destruct (Z.leb_spec 3 (safe_level w)); [lia |].
  cbn beta iota. split.
  - intro Hn. destruct (Z.ltb_spec n 0); [reflexivity | lia].
  - intro Hn. destruct (Z.ltb_spec n 0); [lia |].
    eexists. split; [reflexivity |].
    rewrite hostname_of_buffer.
    split; [| split].
    + etransitivity; [apply strlen_le | apply firstn_le_length].
    + apply until_nul_has_no_nul.
    + intros host rest -> Hh. now apply hostname_written.
Qed.

End HostnameFacts.

(* ------------------------------------------------------------------ *)
(** ** Further runs on Linux *)

Import Runs.

(** The bytes [SA_LEN] reads on the two platforms: once the string that
    [memcpy] puts at the head of [ss] covers them, the macro gives for
    [ss] what it gives for the string, whatever [ss] held before. *)
Lemma SA_LEN_of_ss_linux (s ss : bytes) :
  (SA_LEN_reads linux <= length s)%nat ->
  SA_LEN linux (store 0 s ss) = SA_LEN linux s.
Proof.
  intro Hl. cbn [SA_LEN_reads linux] in Hl.
  unfold store. cbn [firstn app Nat.add SA_LEN linux].
  now rewrite load_app_l by (simpl; lia).
Qed.

Lemma SA_LEN_of_ss_darwin (s ss : bytes) :
  (SA_LEN_reads darwin <= length s)%nat ->
  SA_LEN darwin (store 0 s ss) = SA_LEN darwin s.
Proof.
  intro Hl. cbn [SA_LEN_reads darwin] in Hl.
  unfold store. cbn [firstn app Nat.add SA_LEN darwin].
  now rewrite load_app_l by (simpl; lia).
Qed.

Lemma socketpair_block_closes_both_witness :
  sock_s_socketpair linux (helpers0 linux) host_plain
    (RInteger 1) (RInteger 1) (RInteger 0) (Some raising_block) (0, 0) world0
  = (Raise (Thrown (RString (lit "stop"))),
     after_calls world0
       [ev_socketpair 1 1 0; ev_rb_yield (RArray [RSocket 3; RSocket 4]);
        ev_close (RSocket 4); ev_close (RSocket 3)] 0).
Proof.
  exact (socketpair_block_closes_both linux (helpers0 linux) host_plain
             (RInteger 1) (RInteger 1) (RInteger 0) raising_block (0, 0) world0
             1 1 0 0 0 3 4 (Raise (Thrown (RString (lit "stop"))))
             (after_calls world0
                [ev_socketpair 1 1 0; ev_rb_yield (RArray [RSocket 3; RSocket 4])] 0)
             eq_refl eq_refl eq_refl eq_refl eq_refl ltac:(lia) eq_refl
             ltac:(discriminate)).
Defined.

Lemma socketpair_rejects_arguments_witness :
  exists ex,
    sock_s_socketpair linux (helpers0 linux) host_plain
      (RString (lit "bogus")) (RInteger 1) (RInteger 0) None (0, 0) world0
    = (Raise ex, world0).
Proof.
  destruct (socketpair_rejects_arguments linux (helpers0 linux) host_plain
              (RString (lit "bogus")) (RInteger 1) (RInteger 0) None (0, 0) world0
              eq_refl) as [Hfam _].
  eexists. apply Hfam. reflexivity.
Defined.

Lemma sock_initialize_outcomes_witness :
  sock_initialize linux (helpers0 linux) host_plain
    (RInteger 2) (RInteger 1) (RInteger 0) world0
  = (Ok (RSocket 3), after_calls world0 [ev_ruby_socket 2 1 0] 0).
Proof.
  destruct (sock_initialize_outcomes linux (helpers0 linux) host_plain
              (RInteger 2) (RInteger 1) (RInteger 0) world0 2 1 0 3 0
              eq_refl eq_refl eq_refl eq_refl) as (_ & _ & Hok).
  apply Hok; vm_compute; [reflexivity | discriminate].
Defined.

Lemma closed_socket_makes_no_call_witness :
  sock_bind linux host_plain (-1) sockaddr_in_1 world0 = (Raise closed_stream, world0).
Proof.
  destruct (closed_socket_makes_no_call linux host_plain (-1) sockaddr_in_1 world0
              ltac:(lia)) as (_ & _ & Hbind & _).
  exact Hbind.
Defined.

Lemma listen_passes_backlog_witness :
  issued (sock_listen linux host_plain 5 (RInteger 128)) world0 = [ev_listen 5 128].
Proof.
  destruct (listen_passes_backlog linux host_plain 5 128 world0
              ltac:(vm_compute; discriminate) ltac:(lia) ltac:(vm_compute; reflexivity))
    as [Hin _].
  apply Hin. lia.
Defined.

Lemma connect_nonblock_stops_when_unmarked_witness :
  sock_connect_nonblock linux host_unmarkable 5 sockaddr_in_1 world0
  = (Raise (SysFail "fcntl(2)" 9), after_calls world0 [ev_rb_io_set_nonblock 5] 0).
Proof.
  apply (connect_nonblock_stops_when_unmarked linux host_unmarkable 5 sockaddr_in_1
           world0 (SysFail "fcntl(2)" 9)); [lia | reflexivity].
Defined.

Lemma bind_and_connect_outcomes_witness :
  sock_bind linux host_plain 5 sockaddr_in_1 world0
  = (Ok (RInteger 0), after_calls world0 [ev_bind 5 sockaddr_in_1] 0).
Proof.
  destruct (bind_and_connect_outcomes linux host_plain 5 sockaddr_in_1 world0
              ltac:(lia)) as [Hbind _].
  exact (Hbind 0 0 eq_refl).
Defined.

Lemma accept_outcomes_witness :
  sock_accept host_plain 5 world0
  = (Ok (RArray [RSocket 6; RAddrinfo (RSocket 6) []]),
     after_calls world0 [ev_s_accept true 5] 0).
Proof.
  destruct (accept_outcomes host_plain 5 world0 ltac:(lia)) as (_ & _ & _ & Hok).
  exact (Hok true (RSocket 6) [] eq_refl).
Defined.

Lemma unpack_sockaddr_in_port_witness :
  sock_s_unpack_sockaddr_in linux (helpers0 linux) sockaddr_in_1
  = Ok (RArray [RInteger 80; RString [x7f; x00; x00; x01]]).
Proof.
  destruct (unpack_sockaddr_in_port linux (helpers0 linux) sockaddr_in_1
              (RString [x7f; x00; x00; x01])
              ltac:(vm_compute; lia) eq_refl ltac:(vm_compute; lia) eq_refl)
    as [Hrun _].
  exact Hrun.
Defined.

Lemma pack_sockaddr_un_layout_witness :
  exists addr,
    sock_s_pack_sockaddr_un linux (lit "/tmp/sock") = Ok addr
    /\ length addr = 110%nat
    /\ skipn 2 addr = lit "/tmp/sock" ++ repeat x00 99.
Proof.
  destruct (pack_sockaddr_un_layout linux (lit "/tmp/sock") linux_wf eq_refl
              ltac:(vm_compute; lia)) as (addr & Ea & El & _ & Et).
  exists addr. repeat split; assumption.
Defined.

Lemma pack_sockaddr_un_injective_witness :
  firstn 6 (lit "/tmp/a/b") = lit "/tmp/a".
Proof.
  apply (pack_sockaddr_un_injective linux (firstn 6 (lit "/tmp/a/b")) (lit "/tmp/a")
           linux_wf);
    solve [reflexivity | vm_compute; lia].
Defined.

Lemma getservbyname_entry_witness :
  sock_s_getservbyname linux host_plain (RString (lit "http")) Qnil world0
  = (Ok (RInteger 80), after_calls world0 [ev_getservbyname (lit "http") (lit "tcp")] 0).
Proof.
  exact (getservbyname_entry linux host_plain (lit "http") None world0
           {| s_name := lit "http"; s_port := 20480 |} 80
           ltac:(vm_compute; discriminate) eq_refl eq_refl eq_refl eq_refl
           ltac:(lia)).
Defined.

Lemma service_name_port_round_trip_witness :
  fst (bind (sock_s_getservbyname linux host_plain (RString (lit "http")) Qnil)
            (fun port => sock_s_getservbyport linux host_plain port Qnil) world0)
  = Ok (RString (lit "http")).
Proof.
  exact (f_equal fst
           (service_name_port_round_trip linux host_plain (lit "http") None world0
              {| s_name := lit "http"; s_port := 20480 |}
              {| s_name := lit "http"; s_port := 20480 |} 80
              ltac:(vm_compute; discriminate) eq_refl eq_refl eq_refl eq_refl
              ltac:(lia) eq_refl)).
Defined.

Lemma service_lookup_validates_arguments_witness :
  sock_s_getservbyname linux host_plain (RString [x68; x00; x74]) Qnil world0
    = (Raise (Exc rb_eArgError "string contains null byte" []), world0)
  /\ sock_s_getservbyport linux host_plain (RInteger 80) (RString [x74; x00]) world0
    = (Raise (Exc rb_eArgError "string contains null byte" []), world0).
Proof.
  destruct (service_lookup_validates_arguments linux host_plain world0 linux_wf)
    as (Hname & _ & Hport).
  split.
  - exact (Hname [x68; x00; x74] None eq_refl).
  - destruct (Hport 80 [x74; x00] eq_refl) as [Hin _]. apply Hin. lia.
Defined.

Lemma host_arg_truncates_witness :
  host_arg (RString (lit "localhost")) = Ok (Some (lit "localhost")).
Proof.
  destruct (host_arg_truncates (lit "localhost")) as (h & Eh & _ & _ & _ & Hsame).
  rewrite Eh, Hsame; [reflexivity | reflexivity | vm_compute; lia].
Defined.

Lemma getnameinfo_string_checks_witness :
  sock_s_getnameinfo linux (helpers0 linux) host_two_addresses
    (RString sockaddr_in_1) Qnil world0
  = (Ok (RArray [RString (lit "localhost"); RString (lit "www")]),
     after_calls world0 [ev_rb_getnameinfo sockaddr_in_1 16 0] 0).
Proof.
  destruct (getnameinfo_string_checks linux (helpers0 linux) host_two_addresses
              sockaddr_in_1 Qnil 0 world0 eq_refl) as (_ & _ & Hok).
  exact (Hok ltac:(vm_compute; lia) eq_refl 0 (lit "localhost") (lit "www") eq_refl).
Defined.

Lemma getnameinfo_bad_argument_witness :
  sock_s_getnameinfo linux (helpers0 linux) host_plain
    (RArray [RInteger 2; RInteger 80]) Qnil world0
  = (Raise (Exc rb_eArgError "array size should be 3 or 4, %ld given" [FInt 2]),
     world0).
Proof.
  destruct (getnameinfo_bad_argument linux (helpers0 linux) host_plain
              (RArray [RInteger 2; RInteger 80]) Qnil 0 world0 eq_refl) as [_ Hsize].
  apply (Hsize [RInteger 2; RInteger 80]); [reflexivity | vm_compute; lia].
Defined.

Lemma getnameinfo_numeric_host_witness :
  exists rest,
    issued (sock_s_getnameinfo linux (helpers0 linux) host_two_addresses
              (RArray [RInteger 2; RInteger 80; Qnil; RString (lit "127.0.0.1")])
              Qnil) world0
    = ev_rb_getaddrinfo (Some (lit "127.0.0.1")) (Some (lit "80"))
        {| hint_flags := 4; hint_family := 2; hint_socktype := 1 |} :: rest.
Proof.
  destruct (getnameinfo_numeric_host linux (helpers0 linux) host_two_addresses
              (RInteger 2) (RInteger 80) Qnil (RString (lit "127.0.0.1")) [] Qnil 0
              world0 (Some (lit "80")) 2 eq_refl eq_refl eq_refl) as [Hnum _].
  exact (Hnum (lit "127.0.0.1") eq_refl).
Defined.

Lemma getnameinfo_resolver_errors_witness :
  fst (sock_s_getnameinfo linux (helpers0 linux) host_unnamed_address
         (RArray [RInteger 2; RInteger 80; RString (lit "localhost")]) Qnil world0)
  = Raise (ResolvFail "getnameinfo" (-2)).
Proof.
  destruct (getnameinfo_resolver_errors linux (helpers0 linux) host_unnamed_address
              [RInteger 2; RInteger 80; RString (lit "localhost")] Qnil world0
              (RInteger 2) (RInteger 80) (RString (lit "localhost")) 0 0
              (Some (lit "localhost")) (Some (lit "80")) 2
              eq_refl eq_refl eq_refl eq_refl eq_refl) as [_ Hlater].
  rewrite (Hlater (nameinfo_of names_table) (candidate sockaddr_in_1) []
             (candidate sockaddr_in_3) [] (-2) eq_refl).
  - reflexivity.
  - intros tr x [<- | [<- | []]]; reflexivity.
  - intros x [<- | []]. split; reflexivity.
  - reflexivity.
  - discriminate.
Defined.

Lemma gethostbyaddr_outcomes_witness :
  fst (sock_s_gethostbyaddr linux (helpers0 linux) host_plain
         (RString [x7f; x00; x00; x01]) Qnil world0)
  = Ok (RArray [RString (lit "localhost"); RArray []; RInteger 2;
                RString [x7f; x00; x00; x01]]).
Proof.
  destruct (gethostbyaddr_outcomes linux (helpers0 linux) host_plain
              [x7f; x00; x00; x01] Qnil 2 world0 eq_refl) as [_ Hfound].
  destruct (Hfound {| h_name := lit "localhost"; h_aliases := Some [];
                      h_addrtype := 2; h_addr_list := [[x7f; x00; x00; x01]] |}
              eq_refl eq_refl) as (names & Erun & _ & Hal).
  rewrite Erun, (Hal [] eq_refl). reflexivity.
Defined.

Lemma getaddrinfo_keeps_resolver_order_witness :
  exists base,
    sock_s_getaddrinfo linux (helpers0 linux) ipaddr_numeric resolver_two true
      (RString (lit "localhost")) (RInteger 80) Qnil Qnil Qnil Qnil
    = Ok (RArray base)
    /\ length base = 2%nat.
Proof.
  destruct (getaddrinfo_keeps_resolver_order linux (helpers0 linux) ipaddr_numeric
              resolver_two true (RString (lit "localhost")) (RInteger 80)
              Qnil Qnil Qnil Qnil
              {| rq_flags := 0; rq_family := 0; rq_socktype := 0; rq_protocol := 0 |}
              two_candidates eq_refl eq_refl) as [_ Hok].
  destruct (Hok _ eq_refl) as (base & Eb & El & _).
  exists base. split; [| exact El].
  vm_compute in Eb. injection Eb as <-. reflexivity.
Defined.

Lemma make_addrinfo_first_failure_witness :
  make_addrinfo linux
    (fun sa norev => if bytes_eqb sa sockaddr_in_3
                     then Raise (ResolvFail "getnameinfo" (-2))
                     else ipaddr_numeric sa norev)
    true [candidate sockaddr_in_1; candidate sockaddr_in_3; candidate sockaddr_in_2]
  = Raise (ResolvFail "getnameinfo" (-2)).
Proof.
  apply (make_addrinfo_first_failure linux _ true [candidate sockaddr_in_1]
           (candidate sockaddr_in_3) [candidate sockaddr_in_2]).
  - intros x [<- | []]. eexists. reflexivity.
  - reflexivity.
Defined.

Lemma gethostname_bounded_witness :
  fst (sock_gethostname true false (repeat xff 1024)
         (0, 0, lit "ruby" ++ [x00; x41]) world0)
  = Ok (RString (lit "ruby")).
Proof.
  destruct (gethostname_bounded false (repeat xff 1024) 0 0
              (lit "ruby" ++ [x00; x41]) world0 ltac:(vm_compute; reflexivity))
    as [_ Hok].
  destruct (Hok ltac:(lia)) as (name & Erun & _ & _ & Hname).
  rewrite (Hname (lit "ruby") [x41] eq_refl eq_refl) in Erun. exact Erun.
Defined.

Lemma pack_unpack_sockaddr_in_witness :
  rbind (sock_s_pack_sockaddr_in resolver_in (RInteger 80) (RString (lit "localhost")))
        (sock_s_unpack_sockaddr_in linux (helpers0 linux))
  = Ok (RArray [RInteger 80; RString [x7f; x00; x00; x01]]).
Proof.
  destruct (pack_unpack_sockaddr_in linux (helpers0 linux) resolver_in
              (RInteger 80) (RString (lit "localhost"))
              {| ai_family := 2; ai_socktype := 1; ai_protocol := 6;
                 ai_canonname := Some (lit "localhost"); ai_addr := sockaddr_in_1 |}
              [candidate sockaddr_in_2] 80 (RString [x7f; x00; x00; x01])
              eq_refl ltac:(vm_compute; lia) eq_refl ltac:(vm_compute; lia)
              eq_refl ltac:(lia) eq_refl) as [_ Hround].
  exact Hround.
Defined.
